(** * A Zn spin model on a periodic square lattice, Metropolis updates

    Shallow embedding of [zn_model_code.py]: the [ZnModel] class (lattice,
    local and total energy, magnetization, one Metropolis pass) and the
    [update] callback of the driving script that records the observables.

    Conventions of the embedding.
    - Spins, lattice indices and the magnetization are Python/numpy integers:
      [Z].  Python's own integers are unbounded; what numpy holds is an int64,
      so the bounds numpy checks are written out ([randint],
      [randint_square]) and an int64 sum is taken with its wrap-around
      ([wrap64]).  Energies, the temperature and the field are real numbers:
      [R] (the floating-point rounding of the interpreter is not modelled).
    - The lattice is a numpy int64 array of shape (L, L): a [list (list Z)]
      read and written through numpy's index rule (an index in [-len, len) is
      valid, negative ones count from the end, anything else raises
      IndexError).
    - Exceptions are the [Raise] results of an error monad; the global numpy
      generator is threaded through as a state ([rng]). *)

From Stdlib Require Import ZArith List Reals Lra Lia Bool.
From stdpp Require Import base list.
Import ListNotations.

Local Open Scope Z_scope.

(** ** Exceptions and the two monads *)

Inductive exn : Type :=
| ValueError
| IndexError
| ZeroDivisionError.

Inductive result (A : Type) : Type :=
| Ok (a : A)
| Raise (e : exn).

Arguments Ok {A} a.
Arguments Raise {A} e.

Definition rbind {A B : Type} (c : result A) (k : A -> result B) : result B :=
  match c with
  | Ok a => k a
  | Raise e => Raise e
  end.

(** The state of numpy's global generator: what the next integer draws and
    the next real draws will be.  A raw integer [z] on the tape is reduced
    into the requested range by [randint]; a raw real is clamped into
    [0, 1) by [rand].  An exhausted tape keeps answering with the raw
    value 0. *)
Record rng : Type := mkRng {
  ints : list Z;
  reals : list R
}.

Definition M (A : Type) : Type := rng -> result (A * rng).

Definition ret {A : Type} (a : A) : M A := fun g => Ok (a, g).

Definition raise {A : Type} (e : exn) : M A := fun _ => Raise e.

Definition bind {A B : Type} (c : M A) (k : A -> M B) : M B :=
  fun g => match c g with
           | Ok (a, g') => k a g'
           | Raise e => Raise e
           end.

Definition lift {A : Type} (c : result A) : M A :=
  fun g => match c with
           | Ok a => Ok (a, g)
           | Raise e => Raise e
           end.

Declare Scope py_scope.
Delimit Scope py_scope with py.

Notation "x <- c ;; k" := (bind c (fun x => k))
  (at level 100, c at next level, right associativity) : py_scope.
Notation "x <~ c ;; k" := (bind (lift c) (fun x => k))
  (at level 100, c at next level, right associativity) : py_scope.
Notation "x <-- c ;; k" := (rbind c (fun x => k))
  (at level 100, c at next level, right associativity) : py_scope.

Local Open Scope py_scope.

(** [mapR f l]: a list comprehension whose body may raise. *)
Fixpoint mapR {A B : Type} (f : A -> result B) (l : list A) : result (list B) :=
  match l with
  | [] => Ok []
  | a :: l' => b <-- f a ;; bs <-- mapR f l' ;; Ok (b :: bs)
  end.

(** [foldR f l acc]: a [for] loop over [l] updating an accumulator. *)
Fixpoint foldR {A B : Type} (f : B -> A -> result B) (l : list A) (acc : B)
  : result B :=
  match l with
  | [] => Ok acc
  | a :: l' => acc' <-- f acc a ;; foldR f l' acc'
  end.

(** [iterM k f a]: [for _ in range(k): a = f(a)] in the generator monad. *)
Fixpoint iterM {A : Type} (k : nat) (f : A -> M A) (a : A) : M A :=
  match k with
  | O => ret a
  | S k' => a' <- f a ;; iterM k' f a'
  end.

(** [range(k)] for an integer [k]; empty when [k <= 0]. *)
Definition range (k : Z) : list Z := map Z.of_nat (seq 0 (Z.to_nat k)).

Definition sumZ (l : list Z) : Z := fold_right Z.add 0 l.

Definition sumR (l : list R) : R := fold_right Rplus 0%R l.

(** ** numpy: 64-bit integers *)

Definition int64_min : Z := - 2 ^ 63.

Definition int64_max : Z := 2 ^ 63 - 1.

(** What an int64 operation keeps of its exact result: the two's complement
    value of the low 64 bits. *)
Definition wrap64 (z : Z) : Z := (z - int64_min) mod 2 ^ 64 + int64_min.

(** ** numpy: random draws *)

(** [np.random.randint(low, high)] with the default dtype: an int64 of
    [low, high).  numpy works on the closed range [low, high - 1] and checks,
    in this order, that [low] and [high - 1] are int64 values and that the
    range is not empty; each failure is a ValueError. *)
Definition randint (low high : Z) : M Z := fun g =>
  if low <? int64_min then Raise ValueError
  else if int64_max <? high - 1 then Raise ValueError
  else if high - 1 <? low then Raise ValueError
  else match ints g with
       | [] => Ok (low, g)
       | z :: zs => Ok (low + z mod (high - low), mkRng zs (reals g))
       end.

Definition unit_clamp (u : R) : R :=
  if Rle_dec 0 u then (if Rlt_dec u 1 then u else 0%R) else 0%R.

(** [np.random.rand()]: a real in [0, 1). *)
Definition rand : M R := fun g =>
  match reals g with
  | [] => Ok (0%R, g)
  | u :: us => Ok (unit_clamp u, mkRng (ints g) us)
  end.

(** [k] successive draws of [randint low high]. *)
Fixpoint randints (k : nat) (low high : Z) : M (list Z) :=
  match k with
  | O => ret []
  | S k' => z <- randint low high ;; zs <- randints k' low high ;; ret (z :: zs)
  end.

Fixpoint randint_rows (r c : nat) (low high : Z) : M (list (list Z)) :=
  match r with
  | O => ret []
  | S r' =>
      row <- randints c low high ;;
      rows <- randint_rows r' c low high ;;
      ret (row :: rows)
  end.

(** [np.random.randint(low, high, (size, size))]: negative dimensions raise
    ValueError; an array without elements is returned as it is, whatever the
    bounds; an array whose size * size cells of 8 bytes exceed the largest
    array numpy addresses (2^63 - 1 bytes) raises ValueError; otherwise the
    bounds are checked and the array is filled in row-major order.  (Running
    out of memory below that limit is not modelled.) *)
Definition randint_square (low high size : Z) : M (list (list Z)) :=
  if size <? 0 then raise ValueError
  else if size =? 0 then ret []
  else if int64_max <? 8 * (size * size) then raise ValueError
  else randint_rows (Z.to_nat size) (Z.to_nat size) low high.

(** ** numpy: indexing a two-dimensional array *)

Definition np_index (len : nat) (i : Z) : result nat :=
  if (0 <=? i) && (i <? Z.of_nat len) then Ok (Z.to_nat i)
  else if (- Z.of_nat len <=? i) && (i <? 0)
       then Ok (Z.to_nat (i + Z.of_nat len))
  else Raise IndexError.

(** [a[x, y]] *)
Definition getitem (a : list (list Z)) (x y : Z) : result Z :=
  i <-- np_index (length a) x ;;
  match a !! i with
  | None => Raise IndexError
  | Some row =>
      j <-- np_index (length row) y ;;
      match row !! j with
      | None => Raise IndexError
      | Some v => Ok v
      end
  end.

(** [a[x, y] = v] *)
Definition setitem (a : list (list Z)) (x y : Z) (v : Z)
  : result (list (list Z)) :=
  i <-- np_index (length a) x ;;
  match a !! i with
  | None => Raise IndexError
  | Some row =>
      j <-- np_index (length row) y ;;
      Ok (<[i := <[j := v]> row]> a)
  end.

(** ** The class [ZnModel] *)

Module ZnModel.

(** The attributes of an instance ([self.L], [self.n], ...). *)
Record t : Type := mk {
  L : Z;                      (* lattice size (L x L) *)
  n : Z;                      (* number of states *)
  T : R;                      (* temperature *)
  H : R;                      (* external field *)
  lattice : list (list Z);
  energy : R;
  magnetization : Z
}.

Definition with_lattice (self : t) (a : list (list Z)) : t :=
  mk (L self) (n self) (T self) (H self) a (energy self) (magnetization self).

Definition with_T (self : t) (temperature : R) : t :=
  mk (L self) (n self) temperature (H self) (lattice self) (energy self)
     (magnetization self).

Definition with_running (self : t) (e : R) (m : Z) : t :=
  mk (L self) (n self) (T self) (H self) (lattice self) e m.

(** The index pairs of the four reads that build [neighbors]
    (lines 24-29), in the order of the source. *)
Definition neighbor_sites (self : t) (x y : Z) : list (Z * Z) :=
  [ ((x + 1) mod L self, y);
    ((x - 1) mod L self, y);
    (x, (y + 1) mod L self);
    (x, (y - 1) mod L self) ].

(** [1 if spin == 1 else -1] *)
Definition contribution (spin : Z) : Z := if spin =? 1 then 1 else -1.

(** [calculate_energy(self, x, y)].  The read of [self.lattice[x, y]] comes
    first, so on a lattice without cells IndexError is raised before any
    [% self.L] is evaluated. *)
Definition calculate_energy (self : t) (x y : Z) : result R :=
  spin <-- getitem (lattice self) x y ;;
  neighbors <-- mapR (fun '(i, j) => getitem (lattice self) i j)
                     (neighbor_sites self x y) ;;
  let interaction_energy :=
    - sumZ (map (fun neighbor => if spin =? neighbor then 1 else 0)
                neighbors) in
  let field_energy := (- H self * IZR (contribution spin))%R in
  Ok (IZR interaction_energy + field_energy)%R.

(** [calculate_total_energy(self)] *)
Definition calculate_total_energy (self : t) : result R :=
  total_energy <--
    foldR (fun acc x =>
             foldR (fun acc' y =>
                      e <-- calculate_energy self x y ;; Ok (acc' + e)%R)
                   (range (L self)) acc)
          (range (L self)) 0%R ;;
  Ok (total_energy / 2)%R.

(** [calculate_magnetization(self)] *)
Definition calculate_magnetization (self : t) : Z :=
  sumZ (map contribution (concat (lattice self))).

(** [__init__(self, lattice_size, n_states, temperature, external_field)].
    The two running scalars do not exist yet while the full recomputations
    run; the record passed to them carries 0 in their place. *)
Definition init (lattice_size n_states : Z) (temperature external_field : R)
  : M t :=
  a <- randint_square 0 n_states lattice_size ;;
  let self := mk lattice_size n_states temperature external_field a 0%R 0 in
  e <~ calculate_total_energy self ;;
  ret (with_running self e (calculate_magnetization self)).

(** What one trial knows when it reaches the acceptance test (line 48). *)
Record proposal : Type := mkProposal {
  site_x : Z;
  site_y : Z;
  old_spin : Z;
  new_spin : Z;
  delta_energy : R;
  tentative : t               (* the instance after line 44 *)
}.

(** [(self.lattice[x, y] + np.random.randint(1, self.n)) % self.n] once the
    cell and the offset are known.  The cell is a numpy int64, so the sum is
    an int64 sum and wraps around; the remainder has the sign of the
    divisor.  ([n_states] = 2^63 is the one value [randint] accepts that is
    no int64 itself; how numpy coerces it depends on its version, and the
    remainder is written here as for every other value.) *)
Definition propose_spin (n_states spin delta : Z) : Z :=
  wrap64 (spin + delta) mod n_states.

(** Lines 39-47 of [metropolis_step]. *)
Definition propose (self : t) : M proposal :=
  x <- randint 0 (L self) ;;
  y <- randint 0 (L self) ;;
  current_energy <~ calculate_energy self x y ;;
  spin <~ getitem (lattice self) x y ;;
  delta <- randint 1 (n self) ;;
  let new_spin := propose_spin (n self) spin delta in
  old_spin <~ getitem (lattice self) x y ;;
  a <~ setitem (lattice self) x y new_spin ;;
  let self' := with_lattice self a in
  new_energy <~ calculate_energy self' x y ;;
  ret (mkProposal x y old_spin new_spin (new_energy - current_energy)%R self').

(** The condition of line 48,
    [delta_energy > 0 and np.random.rand() >= np.exp(-delta_energy / self.T)].
    [and] short-circuits: nothing is drawn when [delta_energy <= 0].  The
    division is Python's: a zero temperature raises ZeroDivisionError (a numpy
    float64 temperature would give -inf instead; every statement below that
    needs the test to return assumes a non-zero temperature). *)
Definition reject_move (delta_energy temperature : R) : M bool :=
  if Rlt_dec 0 delta_energy then
    u <- rand ;;
    if Req_dec_T temperature 0 then raise ZeroDivisionError
    else ret (if Rge_dec u (exp (- delta_energy / temperature)) then true
              else false)
  else ret false.

(** Lines 48-52 of [metropolis_step]. *)
Definition settle (p : proposal) : M t :=
  let self := tentative p in
  rejected <- reject_move (delta_energy p) (T self) ;;
  if rejected : bool then
    a <~ setitem (lattice self) (site_x p) (site_y p) (old_spin p) ;;
    ret (with_lattice self a)
  else
    ret (with_running self
           (energy self + delta_energy p)%R
           (magnetization self
            + (contribution (new_spin p) - contribution (old_spin p)))).

(** The body of the loop of [metropolis_step]. *)
Definition trial (self : t) : M t :=
  p <- propose self ;; settle p.

(** [metropolis_step(self)] *)
Definition metropolis_step (self : t) : M t :=
  iterM (Z.to_nat (L self * L self)) trial self.

End ZnModel.

(** ** The driving script: observables recorded by [update] *)

Module Script.

(** [np.mean] and [np.var] (population variance) of a sequence of reals. *)
Definition np_mean (l : list R) : R := (sumR l / INR (length l))%R.

Definition np_var (l : list R) : R :=
  let m := np_mean l in
  np_mean (map (fun v => ((v - m) * (v - m))%R) l).

(** The module-level variables that [update] reads and mutates, together
    with the state of the generator. *)
Record globals : Type := mkGlobals {
  zn_model : ZnModel.t;
  generator : rng;
  energy_data : list R;
  magnetization_data : list Z;
  specific_heat_data : list R;
  susceptibility_data : list R
}.

Section Animation.

(** The two constants of the script that [update] refers to. *)
Variable lattice_size : Z.
Variable temperature_range : list R.

(** [temperature_range[frame]] *)
Definition temperature_at (frame : Z) : result R :=
  i <-- np_index (length temperature_range) frame ;;
  match temperature_range !! i with
  | None => Raise IndexError
  | Some temperature => Ok temperature
  end.

(** [update(frame)], without the calls into matplotlib.  The two divisions
    have a numpy float64 numerator and do not raise. *)
Definition update (frame : Z) (w : globals) : result globals :=
  temperature <-- temperature_at frame ;;
  match ZnModel.metropolis_step (ZnModel.with_T (zn_model w) temperature)
                                (generator w) with
  | Raise e => Raise e
  | Ok (model, g) =>
      let energy_data' := energy_data w ++ [ZnModel.energy model] in
      let magnetization_data' :=
        magnetization_data w ++ [ZnModel.magnetization model] in
      if (1 <? Z.of_nat (length energy_data')) then
        let specific_heat :=
          (np_var energy_data'
           / (IZR (lattice_size ^ 2) * ZnModel.T model ^ 2))%R in
        let susceptibility :=
          (np_var (map IZR magnetization_data')
           / (IZR (lattice_size ^ 2) * ZnModel.T model))%R in
        Ok (mkGlobals model g energy_data' magnetization_data'
              (specific_heat_data w ++ [specific_heat])
              (susceptibility_data w ++ [susceptibility]))
      else
        Ok (mkGlobals model g energy_data' magnetization_data'
              (specific_heat_data w) (susceptibility_data w))
  end.

(** The animation calls [update] once per frame, in the order given. *)
Definition animate (frames : list Z) (w : globals) : result globals :=
  foldR (fun w' frame => update frame w') frames w.

(** The globals before the first frame (lines 61-70). *)
Definition start (model : ZnModel.t) (g : rng) : globals :=
  mkGlobals model g [] [] [] [].

End Animation.

End Script.

(** ** The driving script: schedule, run and plotted data *)

Module Main.

(** [np.linspace(start, stop, num)] in real arithmetic: [num] evenly spaced
    values from [start] to [stop], both included. *)
Definition linspace (start stop : R) (num : nat) : list R :=
  map (fun i => (start + INR i * ((stop - start) / INR (num - 1)))%R)
      (seq 0 num).

(** Python's [min] and [max] of a list: ValueError on an empty one. *)
Definition py_min (l : list R) : result R :=
  match l with
  | [] => Raise ValueError
  | v :: l' => Ok (fold_left Rmin l' v)
  end.

Definition py_max (l : list R) : result R :=
  match l with
  | [] => Raise ValueError
  | v :: l' => Ok (fold_left Rmax l' v)
  end.

(** The two arguments of [ax2.set_ylim] in [update] (line 113), computed
    from the lists as [update] has just extended them. *)
Definition ylim (w : Script.globals) : result (R * R) :=
  let data := Script.energy_data w ++ map IZR (Script.magnetization_data w) in
  lo <-- py_min data ;;
  hi <-- py_max data ;;
  Ok (lo, hi).

Section Run.

Variable lattice_size : Z.
Variable n_states : Z.
Variable temperature_range : list R.

(** Lines 61-70 and 119-120: the instance is built with the first
    temperature of the schedule and the default field 0, the histories start
    empty, and [update] is called once for each frame of
    [range(n_steps)]. *)
Definition run (g : rng) : result Script.globals :=
  temperature <-- Script.temperature_at temperature_range 0 ;;
  match ZnModel.init lattice_size n_states temperature 0 g with
  | Raise e => Raise e
  | Ok (zn_model, g') =>
      Script.animate lattice_size temperature_range
        (range (Z.of_nat (length temperature_range)))
        (Script.start zn_model g')
  end.

(** The x and y data of the two final plots (lines 128 and 135):
    [temperature_range[:len(data)]] against [data]. *)
Definition specific_heat_curve (w : Script.globals) : list R * list R :=
  (take (length (Script.specific_heat_data w)) temperature_range,
   Script.specific_heat_data w).

Definition susceptibility_curve (w : Script.globals) : list R * list R :=
  (take (length (Script.susceptibility_data w)) temperature_range,
   Script.susceptibility_data w).

End Run.

(** The constants of the script (lines 55-58). *)
Definition lattice_size : Z := 50.
Definition n_states : Z := 2.
Definition temperature_range : list R := linspace 5 (1 / 100) 500.
Definition n_steps : Z := Z.of_nat (length temperature_range).

End Main.

(** ** Well-formed instances and pure views of the array accesses *)

(** The shape (size, size). *)
Definition square (size : Z) (a : list (list Z)) : Prop :=
  length a = Z.to_nat size /\ Forall (fun row => length row = Z.to_nat size) a.

(** Every cell holds a state in [0, n_states). *)
Definition cells_in (n_states : Z) (a : list (list Z)) : Prop :=
  Forall (Forall (fun v => 0 <= v < n_states)) a.

(** A site of the size x size grid. *)
Definition site (size : Z) (p : Z * Z) : Prop :=
  0 <= fst p < size /\ 0 <= snd p < size.

(** A size numpy builds an int64 array of shape (size, size) for. *)
Definition addressable (size : Z) : Prop := 8 * (size * size) <= int64_max.

(** A well-formed instance: a valid configuration (L >= 1, n >= 2) whose
    lattice is an int64 array of shape (L, L) with cells in [0, n).  Being a
    numpy array, the lattice is addressable; all states of [0, n) being
    values it can hold, n - 1 is an int64. *)
Record wf (s : ZnModel.t) : Prop := mkWf {
  wf_L : 1 <= ZnModel.L s;
  wf_n : 2 <= ZnModel.n s;
  wf_square : square (ZnModel.L s) (ZnModel.lattice s);
  wf_cells : cells_in (ZnModel.n s) (ZnModel.lattice s);
  wf_size : addressable (ZnModel.L s);
  wf_states : ZnModel.n s - 1 <= int64_max
}.

(** The content of cell (x, y), 0 where there is none. *)
Definition cell (a : list (list Z)) (x y : Z) : Z :=
  default 0 (a !! Z.to_nat x ≫= fun row => row !! Z.to_nat y).

(** The array with cell (x, y) replaced. *)
Definition put (a : list (list Z)) (x y : Z) (v : Z) : list (list Z) :=
  alter (fun row => <[Z.to_nat y := v]> row) (Z.to_nat x) a.

(** The number of cells that hold state 1. *)
Definition count_ones (a : list (list Z)) : Z :=
  sumZ (map (fun v => if v =? 1 then 1 else 0) (concat a)).

(** The local energy in the words of the specification: each of the four
    toroidal neighbours contributes -1 when it holds the state of the cell
    and 0 otherwise; the field adds -H on state 1 and +H on any other. *)
Definition pair_energy (a b : Z) : Z := if a =? b then -1 else 0.

Definition local_energy (s : ZnModel.t) (x y : Z) : R :=
  let size := ZnModel.L s in
  let a := ZnModel.lattice s in
  let spin := cell a x y in
  (IZR (pair_energy spin (cell a ((x + 1) mod size) y)
        + pair_energy spin (cell a ((x - 1) mod size) y)
        + pair_energy spin (cell a x ((y + 1) mod size))
        + pair_energy spin (cell a x ((y - 1) mod size)))
   + (if spin =? 1 then - ZnModel.H s else ZnModel.H s))%R.

(** All sites of the grid, row by row. *)
Definition sites (size : Z) : list (Z * Z) :=
  flat_map (fun x => map (fun y => (x, y)) (range size)) (range size).

(** What lines 39-47 establish on a well-formed instance. *)
Record proposed (s : ZnModel.t) (p : ZnModel.proposal) : Prop := mkProposed {
  pr_site : site (ZnModel.L s) (ZnModel.site_x p, ZnModel.site_y p);
  pr_old :
    ZnModel.old_spin p
    = cell (ZnModel.lattice s) (ZnModel.site_x p) (ZnModel.site_y p);
  pr_new : 0 <= ZnModel.new_spin p < ZnModel.n s;
  pr_diff :
    3 * ZnModel.n s < 2 ^ 64 -> ZnModel.new_spin p <> ZnModel.old_spin p;
  pr_offset :
    exists delta,
      1 <= delta < ZnModel.n s
      /\ ZnModel.new_spin p
         = ZnModel.propose_spin (ZnModel.n s) (ZnModel.old_spin p) delta;
  pr_tentative :
    ZnModel.tentative p
    = ZnModel.with_lattice s
        (put (ZnModel.lattice s) (ZnModel.site_x p) (ZnModel.site_y p)
             (ZnModel.new_spin p));
  pr_delta :
    ZnModel.delta_energy p
    = (local_energy (ZnModel.tentative p) (ZnModel.site_x p) (ZnModel.site_y p)
       - local_energy s (ZnModel.site_x p) (ZnModel.site_y p))%R
}.

(** The instance after an accepted move (lines 44, 51 and 52). *)
Definition accepted (s : ZnModel.t) (p : ZnModel.proposal) : ZnModel.t :=
  ZnModel.mk (ZnModel.L s) (ZnModel.n s) (ZnModel.T s) (ZnModel.H s)
    (put (ZnModel.lattice s) (ZnModel.site_x p) (ZnModel.site_y p)
         (ZnModel.new_spin p))
    (ZnModel.energy s + ZnModel.delta_energy p)%R
    (ZnModel.magnetization s
     + (ZnModel.contribution (ZnModel.new_spin p)
        - ZnModel.contribution (ZnModel.old_spin p))).

(** The magnetization bookkeeping: twice the number of cells in state 1,
    minus the number of cells. *)
Definition magnetization_exact (s : ZnModel.t) : Prop :=
  ZnModel.magnetization s
  = 2 * count_ones (ZnModel.lattice s) - ZnModel.L s ^ 2.

(** The instances a program can hold: built by the constructor from a valid
    configuration, then changed by trials and by assignments to [T]. *)
Inductive reachable : ZnModel.t -> Prop :=
| reach_init (lattice_size n_states : Z) (temperature external_field : R)
             (g g' : rng) (s : ZnModel.t) :
    1 <= lattice_size -> 2 <= n_states ->
    ZnModel.init lattice_size n_states temperature external_field g
    = Ok (s, g') ->
    reachable s
| reach_trial (s s' : ZnModel.t) (g g' : rng) :
    reachable s -> ZnModel.trial s g = Ok (s', g') -> reachable s'
| reach_T (s : ZnModel.t) (temperature : R) :
    reachable s -> reachable (ZnModel.with_T s temperature).

(** What the constructor returns for the arguments given (lines 7-13). *)
Record constructed (lattice_size n_states : Z) (temperature external_field : R)
       (s : ZnModel.t) : Prop := mkConstructed {
  c_L : ZnModel.L s = lattice_size;
  c_n : ZnModel.n s = n_states;
  c_T : ZnModel.T s = temperature;
  c_H : ZnModel.H s = external_field;
  c_square : square lattice_size (ZnModel.lattice s);
  c_cells : cells_in n_states (ZnModel.lattice s);
  c_energy : ZnModel.calculate_total_energy s = Ok (ZnModel.energy s);
  c_magnetization : ZnModel.magnetization s = ZnModel.calculate_magnetization s
}.

(** The population variance in the words of the specification: the mean of
    the squared deviations of the values from their mean, the sum of the
    squares being divided by the number of values (not by one less). *)
Definition population_variance (l : list R) : R :=
  let mean := (sumR l / INR (length l))%R in
  (sumR (map (fun v => (v - mean) ^ 2)%R l) / INR (length l))%R.

(** What the globals hold after [k] calls of [update]. *)
Record recorded (lattice_size : Z) (k : nat) (w : Script.globals) : Prop :=
  mkRecorded {
  rec_energy : length (Script.energy_data w) = k;
  rec_magnetization : length (Script.magnetization_data w) = k;
  rec_current :
    (1 <= k)%nat ->
    last (Script.energy_data w) = Some (ZnModel.energy (Script.zn_model w))
    /\ last (Script.magnetization_data w)
       = Some (ZnModel.magnetization (Script.zn_model w));
  rec_specific_heat_length : length (Script.specific_heat_data w) = (k - 1)%nat;
  rec_susceptibility_length :
    length (Script.susceptibility_data w) = (k - 1)%nat;
  rec_latest :
    (2 <= k)%nat ->
    last (Script.specific_heat_data w)
    = Some (Script.np_var (Script.energy_data w)
            / (IZR (lattice_size ^ 2) * ZnModel.T (Script.zn_model w) ^ 2))%R
    /\ last (Script.susceptibility_data w)
       = Some (Script.np_var (map IZR (Script.magnetization_data w))
               / (IZR (lattice_size ^ 2) * ZnModel.T (Script.zn_model w)))%R
}.

(** ** The pair energies, site by site and direction by direction *)

(** The four neighbours of a site on the torus. *)
Definition x_next (size : Z) (p : Z * Z) : Z * Z :=
  ((fst p + 1) mod size, snd p).

Definition x_prev (size : Z) (p : Z * Z) : Z * Z :=
  ((fst p - 1) mod size, snd p).

Definition y_next (size : Z) (p : Z * Z) : Z * Z :=
  (fst p, (snd p + 1) mod size).

Definition y_prev (size : Z) (p : Z * Z) : Z * Z :=
  (fst p, (snd p - 1) mod size).

(** The pair energies of all sites towards one of their neighbours. *)
Definition directed (size : Z) (nb : Z * Z -> Z * Z) (c : Z * Z -> Z) : Z :=
  sumZ (map (fun p => pair_energy (c p) (c (nb p))) (sites size)).

(** The integer part of [local_energy]. *)
Definition bonds (size : Z) (c : Z * Z -> Z) (p : Z * Z) : Z :=
  pair_energy (c p) (c (x_next size p))
  + pair_energy (c p) (c (x_prev size p))
  + pair_energy (c p) (c (y_next size p))
  + pair_energy (c p) (c (y_prev size p)).

Definition cells (a : list (list Z)) (p : Z * Z) : Z := cell a (fst p) (snd p).

(** The sum over all sites of [1 if spin == 1 else -1]. *)
Definition field_sum (size : Z) (c : Z * Z -> Z) : Z :=
  sumZ (map (fun p => ZnModel.contribution (c p)) (sites size)).

(** The value of the full recomputation: the pair energies of all sites and
    their field terms, both halved. *)
Definition recomputed (s : ZnModel.t) : R :=
  ((IZR (sumZ (map (bonds (ZnModel.L s) (cells (ZnModel.lattice s)))
                   (sites (ZnModel.L s))))
    - ZnModel.H s * IZR (field_sum (ZnModel.L s) (cells (ZnModel.lattice s))))
   / 2)%R.

(** The energy bookkeeping: [energy] is what the full recomputation
    returns. *)
Definition energy_exact (s : ZnModel.t) : Prop :=
  ZnModel.calculate_total_energy s = Ok (ZnModel.energy s).

(** What the globals hold after [update] has run over the frames [fs],
    entry by entry: the i-th derived value comes from the first i+2
    recorded values and the temperature of frame i+1. *)
Record played (lattice_size : Z) (temperature_range : list R)
       (model : ZnModel.t) (fs : list Z) (w : Script.globals) : Prop :=
  mkPlayed {
  pl_wf : wf (Script.zn_model w);
  pl_L : ZnModel.L (Script.zn_model w) = ZnModel.L model;
  pl_H : ZnModel.H (Script.zn_model w) = ZnModel.H model;
  pl_reachable : reachable model -> reachable (Script.zn_model w);
  pl_energy : length (Script.energy_data w) = length fs;
  pl_magnetization : length (Script.magnetization_data w) = length fs;
  pl_specific_heat :
    length (Script.specific_heat_data w) = (length fs - 1)%nat;
  pl_susceptibility :
    length (Script.susceptibility_data w) = (length fs - 1)%nat;
  pl_current :
    fs <> [] ->
    last (Script.energy_data w) = Some (ZnModel.energy (Script.zn_model w));
  pl_series :
    forall (i : nat) (frame : Z) (temperature : R),
      fs !! S i = Some frame ->
      Script.temperature_at temperature_range frame = Ok temperature ->
      Script.specific_heat_data w !! i
      = Some (Script.np_var (take (S (S i)) (Script.energy_data w))
              / (IZR (lattice_size ^ 2) * temperature ^ 2))%R
      /\ Script.susceptibility_data w !! i
         = Some (Script.np_var
                   (map IZR (take (S (S i)) (Script.magnetization_data w)))
                 / (IZR (lattice_size ^ 2) * temperature))%R
}.

(** ** Sample inputs *)

(** A generator whose tapes are used up: every integer draw returns the low
    end of its range and every real draw returns 0. *)
Definition exhausted : rng := mkRng [] [].

(** The 2 x 2 checkerboard with two states and no field. *)
Definition checkerboard (temperature e : R) (m : Z) : ZnModel.t :=
  ZnModel.mk 2 2 temperature 0 [[0; 1]; [1; 0]] e m.

(** What [ZnModel(3, 2, 1)] builds from the exhausted generator: all nine
    cells in state 0. *)
Definition aligned3 : ZnModel.t :=
  ZnModel.mk 3 2 1 0 [[0; 0; 0]; [0; 0; 0]; [0; 0; 0]] (-18) (-9).

(** A generator whose next real draw is 1/2. *)
Definition half_next : rng := mkRng [] [(/ 2)%R].

(** The proposal of the first trial on [aligned3] when the integer tape is
    used up: site (0, 0), state 0 to state 1, four aligned pairs lost. *)
Definition flip_corner : ZnModel.proposal :=
  ZnModel.mkProposal 0 0 0 1 4
    (ZnModel.with_lattice aligned3 [[1; 0; 0]; [0; 0; 0]; [0; 0; 0]]).

(** What [ZnModel(2, 2, 1, 3)] builds from the exhausted generator: four
    cells in state 0 under the field H = 3. *)
Definition biased2 : ZnModel.t :=
  ZnModel.mk 2 2 1 3 [[0; 0]; [0; 0]] (-2) (-4).

(** The draws of one pass over [biased2] that visits (0,0), (0,1), (1,0),
    (1,1) in turn: x, y and the raw offset of each trial. *)
Definition sweep2 : rng :=
  mkRng [0; 0; 0;  0; 1; 0;  1; 0; 0;  1; 1; 0] [].

(** [aligned3] with the cell (0, 0) in state 1: four aligned pairs less. *)
Definition corner3 : ZnModel.t :=
  ZnModel.mk 3 2 1 0 [[1; 0; 0]; [0; 0; 0]; [0; 0; 0]] (-14) (-7).

(** What the globals hold after three calls of [update] on [aligned3] with
    the exhausted generator, for the frames 0, 2, 1 of the schedule 5, 1, 2:
    each pass flips the cell (0, 0). *)
Definition three_frames : Script.globals :=
  Script.mkGlobals (ZnModel.with_T corner3 1) exhausted
    [(-14)%R; (-18)%R; (-14)%R] [-7; -9; -7]
    [(4 / (9 * 4))%R; (32 / 9 / 9)%R] [(1 / (9 * 2))%R; (8 / 9 / 9)%R].

(** [biased2] after that pass: every cell in state 1. *)
Definition flipped2 : ZnModel.t :=
  ZnModel.mk 2 2 1 3 [[1; 1]; [1; 1]] (-26) 4.





(** * Properties *)

(** ** Array accesses *)

Lemma np_index_in_range (len : nat) (i : Z) :
  0 <= i < Z.of_nat len -> np_index len i = Ok (Z.to_nat i).
Proof.
  intros Hi. unfold np_index.
  destruct (Z.leb_spec 0 i); [|lia].
  destruct (Z.ltb_spec i (Z.of_nat len)); [reflexivity|lia].
Qed.

Lemma square_row (size : Z) (a : list (list Z)) (x : Z) :
  square size a -> 0 <= x < size ->
  exists row, a !! Z.to_nat x = Some row /\ length row = Z.to_nat size.
Proof.
  intros [Hlen Hrows] Hx.
  destruct (lookup_lt_is_Some_2 a (Z.to_nat x)) as [row Hrow]; [lia|].
  exists row. split; [exact Hrow|].
  rewrite Forall_lookup in Hrows. exact (Hrows _ _ Hrow).
Qed.

Lemma square_cell (size : Z) (a : list (list Z)) (x y : Z) :
  square size a -> site size (x, y) ->
  exists row, a !! Z.to_nat x = Some row /\ length row = Z.to_nat size
              /\ row !! Z.to_nat y = Some (cell a x y).
Proof.
  intros Hsq [Hx Hy]. simpl in Hx, Hy.
  destruct (square_row size a x Hsq Hx) as (row & Hrow & Hlen).
  exists row. split; [exact Hrow|]. split; [exact Hlen|].
  destruct (lookup_lt_is_Some_2 row (Z.to_nat y)) as [v Hv]; [lia|].
  unfold cell. rewrite Hrow. simpl. rewrite Hv. reflexivity.
Qed.

Lemma getitem_site (size : Z) (a : list (list Z)) (x y : Z) :
  square size a -> site size (x, y) -> getitem a x y = Ok (cell a x y).
Proof.
  intros Hsq Hs.
  destruct (square_cell size a x y Hsq Hs) as (row & Hrow & Hlen & Hv).
  destruct Hs as [Hx Hy]. simpl in Hx, Hy. destruct Hsq as [Hla _].
  unfold getitem.
  rewrite np_index_in_range by lia. simpl. rewrite Hrow.
  rewrite np_index_in_range by lia. simpl. rewrite Hv. reflexivity.
Qed.

Lemma setitem_site (size : Z) (a : list (list Z)) (x y v : Z) :
  square size a -> site size (x, y) -> setitem a x y v = Ok (put a x y v).
Proof.
  intros Hsq Hs.
  destruct (square_cell size a x y Hsq Hs) as (row & Hrow & Hlen & Hv).
  destruct Hs as [Hx Hy]. simpl in Hx, Hy. destruct Hsq as [Hla _].
  unfold setitem, put.
  rewrite np_index_in_range by lia. simpl. rewrite Hrow.
  rewrite np_index_in_range by lia. simpl. f_equal.
  apply list_eq. intros k.
  destruct (decide (k = Z.to_nat x)) as [->|Hne].
  - rewrite list_lookup_insert_eq by lia.
    rewrite list_lookup_alter_eq, Hrow. reflexivity.
  - rewrite list_lookup_insert_ne by congruence.
    rewrite list_lookup_alter_ne by congruence. reflexivity.
Qed.

Lemma put_square (size : Z) (a : list (list Z)) (x y v : Z) :
  square size a -> square size (put a x y v).
Proof.
  intros [Hlen Hrows]. unfold put. split.
  - rewrite length_alter. exact Hlen.
  - apply Forall_alter; [exact Hrows|].
    intros row _ Hr. rewrite length_insert. exact Hr.
Qed.

Lemma cell_put_eq (size : Z) (a : list (list Z)) (x y v : Z) :
  square size a -> site size (x, y) -> cell (put a x y v) x y = v.
Proof.
  intros Hsq Hs.
  destruct (square_cell size a x y Hsq Hs) as (row & Hrow & Hlen & Hv).
  destruct Hs as [Hx Hy]. simpl in Hx, Hy.
  unfold cell, put. rewrite list_lookup_alter_eq, Hrow. simpl.
  rewrite list_lookup_insert_eq by lia. reflexivity.
Qed.

Lemma cell_put_ne (a : list (list Z)) (x y v i j : Z) :
  0 <= x -> 0 <= y -> 0 <= i -> 0 <= j -> (i, j) <> (x, y) ->
  cell (put a x y v) i j = cell a i j.
Proof.
  intros Hx Hy Hi Hj Hne. unfold cell, put.
  destruct (decide (Z.to_nat i = Z.to_nat x)) as [Heq|Hnx].
  - rewrite Heq, list_lookup_alter_eq.
    destruct (a !! Z.to_nat x) as [row|]; simpl; [|reflexivity].
    rewrite list_lookup_insert_ne; [reflexivity|].
    intros Hy'. apply Hne. f_equal; lia.
  - rewrite list_lookup_alter_ne by congruence. reflexivity.
Qed.

Lemma put_put (a : list (list Z)) (x y v w : Z) :
  put (put a x y v) x y w = put a x y w.
Proof.
  unfold put. rewrite list_alter_alter_eq.
  apply list_alter_ext; [|reflexivity].
  intros row _. simpl. apply list_insert_insert_eq.
Qed.

Lemma put_cell (size : Z) (a : list (list Z)) (x y : Z) :
  square size a -> site size (x, y) -> put a x y (cell a x y) = a.
Proof.
  intros Hsq Hs.
  destruct (square_cell size a x y Hsq Hs) as (row & Hrow & Hlen & Hv).
  unfold put. apply list_eq. intros k.
  destruct (decide (k = Z.to_nat x)) as [->|Hne].
  - rewrite list_lookup_alter_eq, Hrow. simpl.
    rewrite list_insert_id by exact Hv. reflexivity.
  - rewrite list_lookup_alter_ne by congruence. reflexivity.
Qed.

(** ** Loops and sums *)

Lemma range_spec (k x : Z) : In x (range k) <-> 0 <= x < k.
Proof.
  unfold range. rewrite in_map_iff. split.
  - intros (i & <- & Hi). apply in_seq in Hi. lia.
  - intros Hx. exists (Z.to_nat x). split; [lia|]. apply in_seq. lia.
Qed.

Lemma range_length (k : Z) : length (range k) = Z.to_nat k.
Proof. unfold range. rewrite length_map, length_seq. reflexivity. Qed.

Lemma sumR_app (l1 l2 : list R) : sumR (l1 ++ l2) = (sumR l1 + sumR l2)%R.
Proof.
  induction l1 as [|v l1 IH]; simpl; [lra|]. rewrite IH. lra.
Qed.

Lemma sumZ_app (l1 l2 : list Z) : sumZ (l1 ++ l2) = sumZ l1 + sumZ l2.
Proof.
  induction l1 as [|v l1 IH]; simpl; [reflexivity|]. rewrite IH. lia.
Qed.

(** A loop whose body adds [w a] to the accumulator computes the sum. *)
Lemma foldR_shift {A : Type} (F : R -> A -> result R) (w : A -> R)
      (l : list A) (acc : R) :
  (forall a, In a l -> forall acc', F acc' a = Ok (acc' + w a)%R) ->
  foldR F l acc = Ok (acc + sumR (map w l))%R.
Proof.
  revert acc. induction l as [|a l IH]; intros acc HF; simpl.
  - f_equal. lra.
  - rewrite HF by (left; reflexivity). simpl.
    rewrite IH by (intros b Hb; apply HF; right; exact Hb).
    f_equal. lra.
Qed.

Lemma sumR_sites (size : Z) (w : Z * Z -> R) :
  sumR (map w (sites size))
  = sumR (map (fun x => sumR (map (fun y => w (x, y)) (range size)))
              (range size)).
Proof.
  unfold sites. induction (range size) as [|x xs IH] at 2 4; simpl.
  - reflexivity.
  - rewrite map_app, sumR_app, IH, map_map. reflexivity.
Qed.

Lemma sites_spec (size : Z) (p : Z * Z) : In p (sites size) <-> site size p.
Proof.
  unfold sites, site. rewrite in_flat_map. split.
  - intros (x & Hx & Hp). apply in_map_iff in Hp as (y & <- & Hy).
    apply range_spec in Hx, Hy. simpl. lia.
  - intros [Hx Hy]. exists (fst p). split; [apply range_spec; lia|].
    apply in_map_iff. exists (snd p). split; [destruct p; reflexivity|].
    apply range_spec. lia.
Qed.

(** ** The energy model *)

Lemma neighbor_sites_in_grid (s : ZnModel.t) (x y : Z) :
  site (ZnModel.L s) (x, y) ->
  Forall (site (ZnModel.L s)) (ZnModel.neighbor_sites s x y).
Proof.
  intros [Hx Hy]. simpl in Hx, Hy. unfold ZnModel.neighbor_sites, site.
  assert (Hpos : 0 < ZnModel.L s) by lia.
  pose proof (Z.mod_pos_bound (x + 1) _ Hpos).
  pose proof (Z.mod_pos_bound (x - 1) _ Hpos).
  pose proof (Z.mod_pos_bound (y + 1) _ Hpos).
  pose proof (Z.mod_pos_bound (y - 1) _ Hpos).
  repeat constructor; simpl; lia.
Qed.

Lemma calculate_energy_site (s : ZnModel.t) (x y : Z) :
  square (ZnModel.L s) (ZnModel.lattice s) ->
  site (ZnModel.L s) (x, y) ->
  ZnModel.calculate_energy s x y = Ok (local_energy s x y).
Proof.
  intros Hsq Hs.
  pose proof (neighbor_sites_in_grid s x y Hs) as Hn.
  unfold ZnModel.neighbor_sites in Hn.
  inversion_clear Hn as [|? ? H1 Hn1]. inversion_clear Hn1 as [|? ? H2 Hn2].
  inversion_clear Hn2 as [|? ? H3 Hn3]. inversion_clear Hn3 as [|? ? H4 _].
  unfold ZnModel.calculate_energy, ZnModel.neighbor_sites.
  rewrite (getitem_site _ _ _ _ Hsq Hs). simpl.
  rewrite (getitem_site _ _ _ _ Hsq H1). simpl.
  rewrite (getitem_site _ _ _ _ Hsq H2). simpl.
  rewrite (getitem_site _ _ _ _ Hsq H3). simpl.
  rewrite (getitem_site _ _ _ _ Hsq H4). simpl.
  f_equal. unfold local_energy, pair_energy, ZnModel.contribution.
  repeat match goal with
         | |- context [?a =? ?b] => destruct (a =? b)
         end; simpl; rewrite ?opp_IZR, ?plus_IZR; lra.
Qed.

Lemma calculate_total_energy_sites (s : ZnModel.t) :
  square (ZnModel.L s) (ZnModel.lattice s) ->
  ZnModel.calculate_total_energy s
  = Ok (sumR (map (fun p => local_energy s (fst p) (snd p))
                  (sites (ZnModel.L s))) / 2)%R.
Proof.
  intros Hsq. unfold ZnModel.calculate_total_energy.
  rewrite (foldR_shift _
             (fun x => sumR (map (fun y => local_energy s x y)
                                 (range (ZnModel.L s))))).
  - simpl. rewrite (sumR_sites _ (fun p => local_energy s (fst p) (snd p))).
    simpl. f_equal. lra.
  - intros x Hx acc. apply range_spec in Hx.
    apply foldR_shift. intros y Hy acc'. apply range_spec in Hy.
    rewrite calculate_energy_site by (try exact Hsq; split; simpl; lia).
    reflexivity.
Qed.

(** ** 64-bit integers *)

(** Arithmetic within the int64 bounds. *)
Ltac int64 :=
  unfold addressable, int64_min, int64_max in *;
  try change (2 ^ 64) with 18446744073709551616 in *;
  try change (2 ^ 63) with 9223372036854775808 in *;
  try change (2 ^ 62) with 4611686018427387904 in *;
  try change (2 ^ 30) with 1073741824 in *;
  nia.

Lemma wrap64_small (z : Z) : int64_min <= z <= int64_max -> wrap64 z = z.
Proof.
  intros Hz. unfold wrap64. rewrite Z.mod_small; [lia|]. int64.
Qed.

Lemma wrap64_above (z : Z) :
  int64_max < z <= int64_max + 2 ^ 64 -> wrap64 z = z - 2 ^ 64.
Proof.
  intros Hz. unfold wrap64.
  assert (Hm : (z - int64_min) mod 2 ^ 64 = z - int64_min - 2 ^ 64).
  { symmetry. apply Z.mod_unique_pos with (q := 1); int64. }
  rewrite Hm. lia.
Qed.

Lemma addressable_iff (size : Z) :
  0 <= size -> (addressable size <-> size < 2 ^ 30).
Proof. intros Hs. split; intros H; int64. Qed.

(** ** Random draws *)

(** The three checks of [randint] pass exactly on a non-empty range of
    int64 values; the outcome of the checks does not depend on the
    generator. *)
Lemma randint_checked (low high : Z) (g : rng) :
  int64_min <= low < high -> high - 1 <= int64_max ->
  randint low high g
  = match ints g with
    | [] => Ok (low, g)
    | z :: zs => Ok (low + z mod (high - low), mkRng zs (reals g))
    end.
Proof.
  intros Hlow Hhigh. unfold randint.
  destruct (Z.ltb_spec low int64_min); [lia|].
  destruct (Z.ltb_spec int64_max (high - 1)); [lia|].
  destruct (Z.ltb_spec (high - 1) low); [lia|]. reflexivity.
Qed.

Lemma randint_refused (low high : Z) (g : rng) :
  low < int64_min \/ int64_max < high - 1 \/ high <= low ->
  randint low high g = Raise ValueError.
Proof.
  intros Hbad. unfold randint.
  destruct (Z.ltb_spec low int64_min); [reflexivity|].
  destruct (Z.ltb_spec int64_max (high - 1)); [reflexivity|].
  destruct (Z.ltb_spec (high - 1) low); [reflexivity|lia].
Qed.

Lemma randint_range (low high : Z) (g : rng) :
  int64_min <= low < high -> high - 1 <= int64_max ->
  exists z g', randint low high g = Ok (z, g') /\ low <= z < high
               /\ reals g' = reals g.
Proof.
  intros Hlow Hhigh. rewrite (randint_checked low high g Hlow Hhigh).
  destruct (ints g) as [|z zs].
  - exists low, g. repeat split; lia.
  - exists (low + z mod (high - low)), (mkRng zs (reals g)).
    pose proof (Z.mod_pos_bound z (high - low)). repeat split; simpl; lia.
Qed.

Lemma unit_clamp_range (u : R) : (0 <= unit_clamp u < 1)%R.
Proof.
  unfold unit_clamp.
  destruct (Rle_dec 0 u); [destruct (Rlt_dec u 1)|]; lra.
Qed.

Lemma rand_range (g : rng) :
  exists u g', rand g = Ok (u, g') /\ (0 <= u < 1)%R /\ ints g' = ints g.
Proof.
  unfold rand. destruct (reals g) as [|u us].
  - exists 0%R, g. repeat split; lra.
  - exists (unit_clamp u), (mkRng (ints g) us).
    split; [reflexivity|]. split; [apply unit_clamp_range|reflexivity].
Qed.

(** ** One trial *)

(** The proposed state is a state, whatever the int64 sum wrapped to. *)
Lemma propose_spin_range (n_states spin delta : Z) :
  1 <= n_states ->
  0 <= ZnModel.propose_spin n_states spin delta < n_states.
Proof.
  intros Hn. unfold ZnModel.propose_spin. apply Z.mod_pos_bound. lia.
Qed.


(** With fewer than 2^64 / 3 states the proposed state is another state
    than the one of the cell, also where the int64 sum has wrapped: the sum
    is then short of the exact one by 2^64, which lies strictly between
    3 n and 4 n and is no multiple of n. *)
Lemma propose_spin_differs (n_states spin delta : Z) :
  3 * n_states < 2 ^ 64 -> 0 <= spin < n_states -> 1 <= delta < n_states ->
  ZnModel.propose_spin n_states spin delta <> spin.
Proof.
  intros Hn Hs Hd. unfold ZnModel.propose_spin. intros Heq.
  destruct (Z_le_gt_dec (spin + delta) int64_max) as [Hfits|Hwraps].
  - rewrite wrap64_small in Heq by int64.
    destruct (Z_lt_le_dec (spin + delta) n_states) as [Hlt|Hge].
    + rewrite Z.mod_small in Heq by lia. lia.
    + assert (Hm : (spin + delta) mod n_states = spin + delta - n_states).
      { symmetry. apply Z.mod_unique_pos with (q := 1); lia. }
      lia.
  - rewrite wrap64_above in Heq by int64.
    pose proof (Z.div_mod (spin + delta - 2 ^ 64) n_states ltac:(lia)) as Hq.
    rewrite Heq in Hq.
    set (q := (spin + delta - 2 ^ 64) / n_states) in Hq.
    assert (Hq3 : q <= -3) by int64.
    assert (Hq2 : -2 <= q) by int64.
    lia.
Qed.


Lemma cells_in_cell (size n_states : Z) (a : list (list Z)) (x y : Z) :
  square size a -> cells_in n_states a -> site size (x, y) ->
  0 <= cell a x y < n_states.
Proof.
  intros Hsq Hc Hs.
  destruct (square_cell size a x y Hsq Hs) as (row & Hrow & _ & Hv).
  unfold cells_in in Hc. rewrite Forall_lookup in Hc.
  specialize (Hc _ _ Hrow). rewrite Forall_lookup in Hc.
  exact (Hc _ _ Hv).
Qed.

Lemma cells_in_put (n_states : Z) (a : list (list Z)) (x y v : Z) :
  cells_in n_states a -> 0 <= v < n_states -> cells_in n_states (put a x y v).
Proof.
  intros Hc Hv. unfold cells_in, put.
  apply Forall_alter; [exact Hc|].
  intros row _ Hr. apply Forall_insert; assumption.
Qed.

Lemma propose_total (s : ZnModel.t) (g : rng) :
  wf s ->
  exists p g', ZnModel.propose s g = Ok (p, g') /\ proposed s p
               /\ reals g' = reals g.
Proof.
  intros [HL Hn Hsq Hc HLm Hnm].
  destruct (randint_range 0 (ZnModel.L s) g) as (x & g1 & Ex & Hx & R1);
    [int64..|].
  destruct (randint_range 0 (ZnModel.L s) g1) as (y & g2 & Ey & Hy & R2);
    [int64..|].
  destruct (randint_range 1 (ZnModel.n s) g2) as (d & g3 & Ed & Hd & R3);
    [int64..|].
  assert (Hs : site (ZnModel.L s) (x, y)) by (split; simpl; lia).
  pose proof (cells_in_cell _ _ _ x y Hsq Hc Hs) as Hv.
  pose proof (propose_spin_range (ZnModel.n s)
                (cell (ZnModel.lattice s) x y) d ltac:(lia)) as Hnew.
  assert (Hdiff : 3 * ZnModel.n s < 2 ^ 64 ->
                  ZnModel.propose_spin (ZnModel.n s)
                    (cell (ZnModel.lattice s) x y) d
                  <> cell (ZnModel.lattice s) x y).
  { intros Hsmall. apply propose_spin_differs; assumption. }
  eexists _, g3. split; [|split].
  - unfold ZnModel.propose, bind, lift. rewrite Ex, Ey.
    rewrite (calculate_energy_site s x y Hsq Hs).
    rewrite (getitem_site _ _ x y Hsq Hs). rewrite Ed.
    rewrite (setitem_site _ _ x y _ Hsq Hs).
    rewrite calculate_energy_site;
      [|apply put_square; exact Hsq|exact Hs].
    reflexivity.
  - constructor; simpl; try assumption; try reflexivity.
    exists d. split; [exact Hd|reflexivity].
  - congruence.
Qed.

Lemma reject_move_downhill (delta temperature : R) (g : rng) :
  (delta <= 0)%R -> ZnModel.reject_move delta temperature g = Ok (false, g).
Proof.
  intros Hd. unfold ZnModel.reject_move.
  destruct (Rlt_dec 0 delta); [lra|reflexivity].
Qed.

Lemma reject_move_uphill (delta temperature : R) (g : rng) :
  (0 < delta)%R -> temperature <> 0%R ->
  exists u g',
    rand g = Ok (u, g') /\ (0 <= u < 1)%R /\ ints g' = ints g
    /\ ZnModel.reject_move delta temperature g
       = Ok (if Rge_dec u (exp (- delta / temperature)) then true else false,
             g').
Proof.
  intros Hd Ht.
  destruct (rand_range g) as (u & g' & Eu & Hu & Hi).
  exists u, g'. repeat split; try assumption; try apply Hu.
  unfold ZnModel.reject_move, bind, ret.
  destruct (Rlt_dec 0 delta); [|lra]. rewrite Eu.
  destruct (Req_dec_T temperature 0); [contradiction|reflexivity].
Qed.

Lemma reject_move_total (delta temperature : R) (g : rng) :
  temperature <> 0%R ->
  exists b g', ZnModel.reject_move delta temperature g = Ok (b, g').
Proof.
  intros Ht. destruct (Rle_or_lt delta 0) as [Hd|Hd].
  - exists false, g. apply reject_move_downhill, Hd.
  - destruct (reject_move_uphill delta temperature g Hd Ht)
      as (u & g' & _ & _ & _ & E).
    eexists _, g'. exact E.
Qed.


Lemma with_lattice_same (s : ZnModel.t) :
  ZnModel.with_lattice s (ZnModel.lattice s) = s.
Proof. destruct s. reflexivity. Qed.

(** A trial is its proposal followed by the outcome of the test: the
    instance is left as it was on rejection and is [accepted] otherwise. *)
Lemma trial_settled (s : ZnModel.t) (g g1 g2 : rng) (p : ZnModel.proposal)
      (b : bool) :
  wf s ->
  ZnModel.propose s g = Ok (p, g1) ->
  ZnModel.reject_move (ZnModel.delta_energy p) (ZnModel.T s) g1 = Ok (b, g2) ->
  ZnModel.trial s g = Ok (if b then s else accepted s p, g2).
Proof.
  intros Hwf Hp Hr.
  destruct (propose_total s g Hwf) as (p0 & g0 & Hp0 & Hpr & _).
  rewrite Hp in Hp0. injection Hp0 as <- <-.
  destruct Hpr as [Hs Hold Hnew Hdiff _ Htent Hdelta].
  destruct Hwf as [HL Hn Hsq Hc HLm Hnm].
  unfold ZnModel.trial, bind. rewrite Hp.
  unfold ZnModel.settle, bind. rewrite Htent. simpl. rewrite Hr.
  destruct b.
  - unfold lift, ret.
    rewrite (setitem_site (ZnModel.L s));
      [|apply put_square; exact Hsq|exact Hs].
    rewrite put_put, Hold, (put_cell _ _ _ _ Hsq Hs).
    unfold ZnModel.with_lattice. simpl. destruct s. reflexivity.
  - reflexivity.
Qed.

Lemma accepted_wf (s : ZnModel.t) (p : ZnModel.proposal) :
  wf s -> proposed s p -> wf (accepted s p).
Proof.
  intros [HL Hn Hsq Hc HLm Hnm] Hpr. constructor; simpl; try assumption.
  - apply put_square, Hsq.
  - apply cells_in_put; [exact Hc|apply Hpr].
Qed.

(** A trial on a well-formed instance returns when the temperature is not
    zero, and the only exception it can raise at all is the division by a
    zero temperature. *)
Lemma trial_total (s : ZnModel.t) (g : rng) :
  wf s -> ZnModel.T s <> 0%R ->
  exists p g1 b g2,
    ZnModel.propose s g = Ok (p, g1) /\ proposed s p
    /\ ZnModel.reject_move (ZnModel.delta_energy p) (ZnModel.T s) g1
       = Ok (b, g2)
    /\ ZnModel.trial s g = Ok (if b then s else accepted s p, g2).
Proof.
  intros Hwf Ht.
  destruct (propose_total s g Hwf) as (p & g1 & Hp & Hpr & _).
  destruct (reject_move_total (ZnModel.delta_energy p) _ g1 Ht)
    as (b & g2 & Hr).
  exists p, g1, b, g2.
  split; [exact Hp|]. split; [exact Hpr|]. split; [exact Hr|].
  exact (trial_settled s g g1 g2 p b Hwf Hp Hr).
Qed.

Lemma trial_cases (s s' : ZnModel.t) (g g' : rng) :
  wf s -> ZnModel.trial s g = Ok (s', g') ->
  s' = s \/ exists p, proposed s p /\ s' = accepted s p.
Proof.
  intros Hwf Ht.
  destruct (propose_total s g Hwf) as (p & g1 & Hp & Hpr & _).
  destruct (ZnModel.reject_move (ZnModel.delta_energy p) (ZnModel.T s) g1)
    as [[b g2]|e] eqn:Hr.
  - rewrite (trial_settled s g g1 g2 p b Hwf Hp Hr) in Ht.
    injection Ht as <- <-. destruct b; [left; reflexivity|].
    right. exists p. split; [assumption|reflexivity].
  - unfold ZnModel.trial, bind in Ht. rewrite Hp in Ht.
    unfold ZnModel.settle, bind in Ht.
    rewrite (pr_tentative _ _ Hpr) in Ht. simpl in Ht. rewrite Hr in Ht.
    discriminate.
Qed.


(** ** Construction *)

Lemma randints_total (k : nat) (low high : Z) (g : rng) :
  int64_min <= low < high -> high - 1 <= int64_max ->
  exists l g', randints k low high g = Ok (l, g') /\ length l = k
               /\ Forall (fun v => low <= v < high) l
               /\ reals g' = reals g.
Proof.
  intros Hlow Hhigh. revert g. induction k as [|k IH]; intros g; simpl.
  - exists [], g. repeat split. constructor.
  - destruct (randint_range low high g Hlow Hhigh)
      as (z & g1 & Ez & Hz & R1).
    destruct (IH g1) as (l & g2 & El & Hlen & Hall & R2).
    exists (z :: l), g2. unfold bind, ret. rewrite Ez, El.
    repeat split; simpl; try congruence. constructor; assumption.
Qed.

Lemma randint_rows_total (r c : nat) (low high : Z) (g : rng) :
  int64_min <= low < high -> high - 1 <= int64_max ->
  exists a g', randint_rows r c low high g = Ok (a, g') /\ length a = r
               /\ Forall (fun row => length row = c) a
               /\ Forall (Forall (fun v => low <= v < high)) a
               /\ reals g' = reals g.
Proof.
  intros Hlow Hhigh. revert g. induction r as [|r IH]; intros g; simpl.
  - exists [], g. repeat split; constructor.
  - destruct (randints_total c low high g Hlow Hhigh)
      as (row & g1 & Erow & Hlen & Hall & R1).
    destruct (IH g1) as (a & g2 & Ea & Hla & Hrows & Hcells & R2).
    exists (row :: a), g2. unfold bind, ret. rewrite Erow, Ea.
    repeat split; simpl; try congruence; constructor; assumption.
Qed.

(** Where the first draw is refused, a non-empty array is. *)
Lemma randint_rows_refused (r c : nat) (low high : Z) (g : rng) :
  low < int64_min \/ int64_max < high - 1 \/ high <= low ->
  randint_rows (S r) (S c) low high g = Raise ValueError.
Proof.
  intros Hbad. simpl. unfold bind.
  rewrite (randint_refused low high g Hbad). reflexivity.
Qed.

Lemma randint_square_total (high size : Z) (g : rng) :
  1 <= size -> addressable size -> 1 <= high -> high - 1 <= int64_max ->
  exists a g', randint_square 0 high size g = Ok (a, g')
               /\ square size a /\ cells_in high a.
Proof.
  intros Hs Hsize Hh Hhigh. unfold randint_square.
  destruct (Z.ltb_spec size 0); [lia|].
  destruct (Z.eqb_spec size 0); [lia|].
  destruct (Z.ltb_spec int64_max (8 * (size * size)));
    [unfold addressable in Hsize; lia|].
  destruct (randint_rows_total (Z.to_nat size) (Z.to_nat size) 0 high g)
    as (a & g' & Ea & Hlen & Hrows & Hcells & _); [int64..|].
  exists a, g'. split; [exact Ea|]. split; [split; assumption|exact Hcells].
Qed.

(** For a dimension of 1 or more, [randint_square] raises ValueError when
    the array is too large or the range of states is refused. *)
Lemma randint_square_refused (high size : Z) (g : rng) :
  1 <= size ->
  ~ addressable size \/ high <= 0 \/ int64_max < high - 1 ->
  randint_square 0 high size g = Raise ValueError.
Proof.
  intros Hs Hbad. unfold randint_square.
  destruct (Z.ltb_spec size 0); [lia|].
  destruct (Z.eqb_spec size 0); [lia|].
  destruct (Z.ltb_spec int64_max (8 * (size * size))) as [Hbig|Hfits];
    [reflexivity|].
  destruct (Z.to_nat size) as [|k] eqn:Ek; [lia|].
  apply randint_rows_refused.
  destruct Hbad as [Hbad|[Hbad|Hbad]]; [|lia..].
  contradict Hbad. exact Hfits.
Qed.

Lemma init_total (lattice_size n_states : Z) (temperature external_field : R)
      (g : rng) :
  1 <= lattice_size -> addressable lattice_size ->
  1 <= n_states -> n_states - 1 <= int64_max ->
  exists s g',
    ZnModel.init lattice_size n_states temperature external_field g
    = Ok (s, g')
    /\ constructed lattice_size n_states temperature external_field s.
Proof.
  intros HL Hsize Hn Hstates.
  destruct (randint_square_total n_states lattice_size g HL Hsize Hn Hstates)
    as (a & g' & Ea & Hsq & Hc).
  set (self := ZnModel.mk lattice_size n_states temperature external_field
                          a 0%R 0).
  pose proof (calculate_total_energy_sites self Hsq) as He.
  eexists _, g'. split.
  - unfold ZnModel.init, bind, lift, ret. rewrite Ea. fold self.
    rewrite He. reflexivity.
  - constructor; simpl; try reflexivity; assumption.
Qed.

Lemma init_refused (lattice_size n_states : Z) (temperature external_field : R)
      (g : rng) :
  1 <= lattice_size ->
  ~ addressable lattice_size \/ n_states <= 0 \/ int64_max < n_states - 1 ->
  ZnModel.init lattice_size n_states temperature external_field g
  = Raise ValueError.
Proof.
  intros HL Hbad. unfold ZnModel.init, bind.
  rewrite (randint_square_refused n_states lattice_size g HL Hbad).
  reflexivity.
Qed.

(** A constructor call that returned, for a dimension of 1 or more, was
    given an addressable size and a range of states numpy accepts. *)
Lemma init_accepted (lattice_size n_states : Z)
      (temperature external_field : R) (g g' : rng) (s : ZnModel.t) :
  1 <= lattice_size ->
  ZnModel.init lattice_size n_states temperature external_field g
  = Ok (s, g') ->
  addressable lattice_size /\ 1 <= n_states /\ n_states - 1 <= int64_max.
Proof.
  intros HL Hi.
  destruct (Z_le_gt_dec (8 * (lattice_size * lattice_size)) int64_max)
    as [Hsize|Hsize];
    [|rewrite init_refused in Hi;
      [discriminate|exact HL|left; unfold addressable; lia]].
  destruct (Z_le_gt_dec n_states 0) as [Hn|Hn];
    [rewrite init_refused in Hi; [discriminate|exact HL|right; left; exact Hn]|].
  destruct (Z_le_gt_dec (n_states - 1) int64_max) as [Hm|Hm];
    [|rewrite init_refused in Hi; [discriminate|exact HL|right; right; lia]].
  split; [exact Hsize|]. split; lia.
Qed.

Lemma constructed_wf (lattice_size n_states : Z)
      (temperature external_field : R) (s : ZnModel.t) :
  1 <= lattice_size -> addressable lattice_size ->
  2 <= n_states -> n_states - 1 <= int64_max ->
  constructed lattice_size n_states temperature external_field s -> wf s.
Proof.
  intros HL Hsize Hn Hstates [EL En _ _ Hsq Hc _ _].
  constructor; rewrite ?EL, ?En; assumption.
Qed.

Lemma init_constructed (lattice_size n_states : Z)
      (temperature external_field : R) (g g' : rng) (s : ZnModel.t) :
  1 <= lattice_size ->
  ZnModel.init lattice_size n_states temperature external_field g
  = Ok (s, g') ->
  constructed lattice_size n_states temperature external_field s.
Proof.
  intros HL Hi.
  destruct (init_accepted _ _ _ _ _ _ _ HL Hi) as (Hsize & Hn & Hstates).
  destruct (init_total lattice_size n_states temperature external_field g
                       HL Hsize Hn Hstates) as (s0 & g0 & E0 & Hc).
  rewrite Hi in E0. injection E0 as <- <-. exact Hc.
Qed.

Lemma reachable_wf (s : ZnModel.t) : reachable s -> wf s.
Proof.
  induction 1 as [ls ns temp field g g' s HL Hn Hi
                 | s s' g g' _ IH Ht
                 | s temp _ IH].
  - destruct (init_accepted _ _ _ _ _ _ _ HL Hi) as (Hsize & _ & Hstates).
    apply (constructed_wf ls ns temp field); [assumption..|].
    exact (init_constructed _ _ _ _ g g' s HL Hi).
  - destruct (trial_cases s s' g g' IH Ht) as [->|(p & Hpr & ->)].
    + exact IH.
    + apply accepted_wf; assumption.
  - destruct IH. constructor; assumption.
Qed.

(** ** Sums over the cells and the magnetization *)

Lemma sumZ_alter {A : Type} (w : A -> Z) (h : A -> A) (l : list A) (i : nat)
      (x : A) :
  l !! i = Some x ->
  sumZ (map w (alter h i l)) = sumZ (map w l) - w x + w (h x).
Proof.
  revert i. induction l as [|a l IH]; intros [|i] Hi; try discriminate.
  - injection Hi as ->. simpl. lia.
  - simpl in Hi. simpl. change (list_alter h i l) with (alter h i l).
    rewrite (IH i Hi). lia.
Qed.

Lemma sumZ_concat (f : Z -> Z) (a : list (list Z)) :
  sumZ (map f (concat a)) = sumZ (map (fun row => sumZ (map f row)) a).
Proof.
  induction a as [|row a IH]; simpl; [reflexivity|].
  rewrite map_app, sumZ_app, IH. reflexivity.
Qed.

(** Replacing one cell changes a sum over all cells by the difference of
    the two summands. *)
Lemma sumZ_put (f : Z -> Z) (size : Z) (a : list (list Z)) (x y v : Z) :
  square size a -> site size (x, y) ->
  sumZ (map f (concat (put a x y v)))
  = sumZ (map f (concat a)) - f (cell a x y) + f v.
Proof.
  intros Hsq Hs.
  destruct (square_cell size a x y Hsq Hs) as (row & Hrow & _ & Hv).
  rewrite !sumZ_concat. unfold put.
  rewrite (sumZ_alter _ _ _ _ row Hrow).
  rewrite list_insert_alter, (sumZ_alter _ _ _ _ _ Hv). lia.
Qed.

Lemma sumZ_contribution (l : list Z) :
  sumZ (map ZnModel.contribution l)
  = 2 * sumZ (map (fun v => if v =? 1 then 1 else 0) l) - Z.of_nat (length l).
Proof.
  induction l as [|v l IH]; [reflexivity|].
  cbn [map sumZ fold_right length]. fold (sumZ (map ZnModel.contribution l)).
  fold (sumZ (map (fun v => if v =? 1 then 1 else 0) l)).
  rewrite IH. unfold ZnModel.contribution. destruct (v =? 1); lia.
Qed.

Lemma sumZ_indicator_range (l : list Z) :
  0 <= sumZ (map (fun v => if v =? 1 then 1 else 0) l) <= Z.of_nat (length l).
Proof.
  induction l as [|v l IH]; [simpl; lia|].
  cbn [map sumZ fold_right length].
  fold (sumZ (map (fun v => if v =? 1 then 1 else 0) l)).
  destruct (v =? 1); lia.
Qed.

Lemma square_cells (size : Z) (a : list (list Z)) :
  0 <= size -> square size a -> Z.of_nat (length (concat a)) = size ^ 2.
Proof.
  intros Hs [Hlen Hrows].
  assert (Hc : length (concat a) = (length a * Z.to_nat size)%nat).
  { clear Hlen. induction Hrows as [|row a Hrow _ IH]; [reflexivity|].
    simpl. rewrite length_app, IH, Hrow. reflexivity. }
  rewrite Hc, Hlen. nia.
Qed.

Lemma calculate_magnetization_count (s : ZnModel.t) :
  0 <= ZnModel.L s -> square (ZnModel.L s) (ZnModel.lattice s) ->
  ZnModel.calculate_magnetization s
  = 2 * count_ones (ZnModel.lattice s) - ZnModel.L s ^ 2.
Proof.
  intros HL Hsq. unfold ZnModel.calculate_magnetization, count_ones.
  rewrite sumZ_contribution, (square_cells _ _ HL Hsq). reflexivity.
Qed.

Lemma contribution_step (v w : Z) :
  ZnModel.contribution w - ZnModel.contribution v
  = 2 * ((if w =? 1 then 1 else 0) - (if v =? 1 then 1 else 0)).
Proof.
  unfold ZnModel.contribution. destruct (w =? 1), (v =? 1); lia.
Qed.

Lemma accepted_magnetization (s : ZnModel.t) (p : ZnModel.proposal) :
  wf s -> proposed s p -> magnetization_exact s ->
  magnetization_exact (accepted s p).
Proof.
  intros Hwf Hpr Hm. unfold magnetization_exact in *. simpl.
  unfold count_ones.
  rewrite (sumZ_put _ _ _ _ _ _ (wf_square _ Hwf) (pr_site _ _ Hpr)).
  fold (count_ones (ZnModel.lattice s)).
  rewrite Hm, contribution_step, (pr_old _ _ Hpr). lia.
Qed.

Lemma magnetization_exact_bounds (s : ZnModel.t) :
  wf s -> magnetization_exact s ->
  - ZnModel.L s ^ 2 <= ZnModel.magnetization s <= ZnModel.L s ^ 2
  /\ Z.even (ZnModel.magnetization s) = Z.even (ZnModel.L s ^ 2).
Proof.
  intros [HL _ Hsq _ _ _] Hm. unfold magnetization_exact in Hm.
  pose proof (sumZ_indicator_range (concat (ZnModel.lattice s))) as Hr.
  rewrite (square_cells (ZnModel.L s)) in Hr by (try assumption; lia).
  fold (count_ones (ZnModel.lattice s)) in Hr.
  split; [lia|].
  rewrite Hm, Z.even_sub, Z.even_mul. simpl.
  destruct (Z.even (ZnModel.L s ^ 2)); reflexivity.
Qed.

Lemma reachable_magnetization (s : ZnModel.t) :
  reachable s -> magnetization_exact s.
Proof.
  induction 1 as [ls ns temp field g g' s HL Hn Hi
                 | s s' g g' Hreach IH Ht
                 | s temp _ IH].
  - pose proof (init_constructed ls ns temp field g g' s HL Hi)
      as [EL _ _ _ Hsq _ _ Hm].
    unfold magnetization_exact. rewrite Hm.
    apply calculate_magnetization_count; rewrite EL; [lia|assumption].
  - pose proof (reachable_wf s Hreach) as Hwf.
    destruct (trial_cases s s' g g' Hwf Ht) as [->|(p & Hpr & ->)].
    + exact IH.
    + apply accepted_magnetization; assumption.
  - exact IH.
Qed.

(** ** A full pass and the recorded observables *)

Lemma with_T_wf (s : ZnModel.t) (temperature : R) :
  wf s -> wf (ZnModel.with_T s temperature).
Proof. intros [HL Hn Hsq Hc HLm Hnm]. constructor; assumption. Qed.

Lemma iter_trial_total (k : nat) (s : ZnModel.t) (g : rng) :
  wf s -> ZnModel.T s <> 0%R ->
  exists s' g',
    iterM k ZnModel.trial s g = Ok (s', g')
    /\ wf s' /\ ZnModel.L s' = ZnModel.L s /\ ZnModel.T s' = ZnModel.T s
    /\ ZnModel.H s' = ZnModel.H s
    /\ (reachable s -> reachable s').
Proof.
  revert s g. induction k as [|k IH]; intros s g Hwf HT.
  - exists s, g. split; [reflexivity|]. split; [exact Hwf|]. auto.
  - destruct (trial_total s g Hwf HT)
      as (p & g1 & b & g2 & _ & Hpr & _ & Ht).
    set (s1 := if b then s else accepted s p) in *.
    assert (Hwf1 : wf s1).
    { subst s1. destruct b; [exact Hwf|apply accepted_wf; assumption]. }
    assert (HL1 : ZnModel.L s1 = ZnModel.L s)
      by (subst s1; destruct b; reflexivity).
    assert (HT1 : ZnModel.T s1 = ZnModel.T s)
      by (subst s1; destruct b; reflexivity).
    assert (HH1 : ZnModel.H s1 = ZnModel.H s)
      by (subst s1; destruct b; reflexivity).
    destruct (IH s1 g2 Hwf1)
      as (s' & g' & Hi & Hwf' & HL' & HT' & HH' & Hr');
      [rewrite HT1; exact HT|].
    exists s', g'. simpl. unfold bind. rewrite Ht.
    split; [exact Hi|]. split; [exact Hwf'|].
    split; [congruence|]. split; [congruence|]. split; [congruence|].
    intros Hr. apply Hr'. exact (reach_trial s s1 g g2 Hr Ht).
Qed.

Lemma metropolis_step_total (s : ZnModel.t) (g : rng) :
  wf s -> ZnModel.T s <> 0%R ->
  exists s' g',
    ZnModel.metropolis_step s g = Ok (s', g')
    /\ wf s' /\ ZnModel.L s' = ZnModel.L s /\ ZnModel.T s' = ZnModel.T s
    /\ ZnModel.H s' = ZnModel.H s
    /\ (reachable s -> reachable s').
Proof. intros Hwf HT. apply iter_trial_total; assumption. Qed.

Lemma foldR_app {A B : Type} (F : B -> A -> result B) (l1 l2 : list A)
      (acc : B) :
  foldR F (l1 ++ l2) acc = rbind (foldR F l1 acc) (foldR F l2).
Proof.
  revert acc. induction l1 as [|a l1 IH]; intros acc; simpl; [reflexivity|].
  destruct (F acc a) as [acc'|e]; simpl; [apply IH|reflexivity].
Qed.

Lemma temperature_at_frame (temperature_range : list R) (frame : Z) :
  0 <= frame < Z.of_nat (length temperature_range) ->
  exists temperature,
    Script.temperature_at temperature_range frame = Ok temperature
    /\ temperature_range !! Z.to_nat frame = Some temperature.
Proof.
  intros Hf.
  destruct (lookup_lt_is_Some_2 temperature_range (Z.to_nat frame))
    as [temperature Ht]; [lia|].
  exists temperature. split; [|exact Ht].
  unfold Script.temperature_at. rewrite np_index_in_range by exact Hf.
  simpl. rewrite Ht. reflexivity.
Qed.

(** ** The variance *)

(** [np.var] computes the population variance. *)
Lemma np_var_population_variance (l : list R) :
  Script.np_var l = population_variance l.
Proof.
  unfold Script.np_var, Script.np_mean, population_variance.
  rewrite length_map. f_equal. f_equal.
  apply map_ext. intros v. simpl. ring.
Qed.

(** Of two values it is the square of half their difference. *)
Lemma population_variance_pair (a b : R) :
  population_variance [a; b] = (((a - b) / 2) ^ 2)%R.
Proof. unfold population_variance. simpl. field. Qed.

(** It is the mean of the squares minus the square of the mean (the
    <E^2> - <E>^2 of the comments of [update]). *)
Lemma population_variance_moments (l : list R) :
  l <> [] ->
  population_variance l
  = (sumR (map (fun v => v ^ 2)%R l) / INR (length l)
     - (sumR l / INR (length l)) ^ 2)%R.
Proof.
  intros Hne. unfold population_variance.
  set (k := INR (length l)). set (m := (sumR l / k)%R).
  assert (Hk : k <> 0%R).
  { subst k. apply not_0_INR. destruct l; [congruence|discriminate]. }
  assert (Hsum : forall l0 : list R,
            sumR (map (fun v => (v - m) ^ 2)%R l0)
            = (sumR (map (fun v => v ^ 2)%R l0) - 2 * m * sumR l0
               + INR (length l0) * m ^ 2)%R).
  { induction l0 as [|v l0 IH]; [simpl; ring|].
    cbn [map sumR fold_right length]. fold (sumR l0).
    fold (sumR (map (fun v => (v - m) ^ 2)%R l0)).
    fold (sumR (map (fun v => v ^ 2)%R l0)).
    rewrite IH, S_INR. ring. }
  rewrite Hsum. fold k.
  replace (sumR l) with (m * k)%R by (subst m; field; exact Hk).
  field. exact Hk.
Qed.

(** ** Sample inputs are instances the constructor builds *)

Lemma aligned3_init :
  ZnModel.init 3 2 1 0 exhausted = Ok (aligned3, exhausted).
Proof. vm_compute. do 3 f_equal. lra. Qed.

Lemma aligned3_reachable : reachable aligned3.
Proof.
  apply (reach_init 3 2 1 0 exhausted exhausted); [lia|lia|].
  exact aligned3_init.
Qed.

Lemma aligned3_wf : wf aligned3.
Proof. exact (reachable_wf aligned3 aligned3_reachable). Qed.

Lemma biased2_init :
  ZnModel.init 2 2 1 3 exhausted = Ok (biased2, exhausted).
Proof. vm_compute. do 3 f_equal. lra. Qed.

Lemma biased2_reachable : reachable biased2.
Proof.
  apply (reach_init 2 2 1 3 exhausted exhausted); [lia|lia|].
  exact biased2_init.
Qed.

Lemma biased2_wf : wf biased2.
Proof. exact (reachable_wf biased2 biased2_reachable). Qed.

Lemma flip_corner_proposed :
  ZnModel.propose aligned3 half_next = Ok (flip_corner, half_next).
Proof. vm_compute. do 3 f_equal. lra. Qed.

Lemma exp_minus_4_below_half : (exp (Ropp 4 / 1) < / 2)%R.
Proof.
  replace (Ropp 4 / 1)%R with (Ropp 4) by lra. rewrite exp_Ropp.
  apply Rinv_lt_contravar.
  - apply Rmult_lt_0_compat; [lra|apply exp_pos].
  - pose proof (exp_ineq1 4). lra.
Qed.

Lemma unit_clamp_inside (u : R) : (0 <= u < 1)%R -> unit_clamp u = u.
Proof.
  intros Hu. unfold unit_clamp.
  destruct (Rle_dec 0 u); [|lra]. destruct (Rlt_dec u 1); [reflexivity|lra].
Qed.

Lemma flip_corner_rejected :
  ZnModel.reject_move 4 1 half_next = Ok (true, exhausted).
Proof.
  unfold ZnModel.reject_move, bind.
  destruct (Rlt_dec 0 4); [|lra].
  change (rand half_next) with (Ok (unit_clamp (/ 2), exhausted)).
  cbv beta iota. rewrite unit_clamp_inside by lra.
  destruct (Req_dec_T 1 0); [lra|]. unfold ret.
  pose proof exp_minus_4_below_half.
  destruct (Rge_dec (/ 2) (exp (Ropp 4 / 1))); [reflexivity|lra].
Qed.

(** ** Running a pass on concrete instances *)

Lemma iterM_step {A : Type} (k : nat) (f : A -> M A) (a a' : A)
      (g g' : rng) :
  f a g = Ok (a', g') -> iterM (S k) f a g = iterM k f a' g'.
Proof. intros Hf. simpl. unfold bind. rewrite Hf. reflexivity. Qed.

Ltac concrete_wf :=
  constructor; simpl;
  [ lia | lia | split; [reflexivity | repeat constructor]
  | repeat constructor; lia
  | vm_compute; congruence | vm_compute; congruence ].

(** One trial of a concrete pass whose energy change is not positive: it is
    accepted without a draw. *)
Ltac downhill_trial :=
  match goal with
  | |- iterM (S _) ZnModel.trial ?s ?g = _ =>
      let Hwf := fresh "Hwf" in
      let Hp := fresh "Hp" in
      assert (Hwf : wf s) by concrete_wf;
      eassert (Hp : ZnModel.propose s g = Ok (_, _))
        by (vm_compute; reflexivity);
      erewrite (iterM_step _ _ s _ g _);
      [| apply (trial_settled s g _ _ _ false Hwf Hp);
         apply reject_move_downhill; simpl; lra ];
      clear Hwf Hp
  end.

(** With the tapes used up the acceptance draw is 0, below every Boltzmann
    factor: no move is rejected. *)
Lemma reject_move_exhausted (delta temperature : R) :
  temperature <> 0%R ->
  ZnModel.reject_move delta temperature exhausted = Ok (false, exhausted).
Proof.
  intros Ht. unfold ZnModel.reject_move, bind, ret.
  destruct (Rlt_dec 0 delta); [|reflexivity].
  change (rand exhausted) with (Ok (0%R, exhausted)). cbv beta iota.
  destruct (Req_dec_T temperature 0); [contradiction|].
  pose proof (exp_pos (- delta / temperature)).
  destruct (Rge_dec 0 (exp (- delta / temperature))); [lra|reflexivity].
Qed.

(** A trial on [aligned3] drawn from the exhausted generator visits
    (0, 0) with the offset 1 and is accepted, whatever the (non-zero)
    temperature: the cell goes to state 1; the same trial on [corner3]
    brings it back. *)
Lemma aligned3_trial (temperature : R) :
  temperature <> 0%R ->
  ZnModel.trial (ZnModel.with_T aligned3 temperature) exhausted
  = Ok (ZnModel.with_T corner3 temperature, exhausted).
Proof.
  intros Ht.
  assert (Hwf : wf (ZnModel.with_T aligned3 temperature))
    by exact (with_T_wf _ _ aligned3_wf).
  eassert (Hp : ZnModel.propose (ZnModel.with_T aligned3 temperature)
                                exhausted = Ok (_, _))
    by (vm_compute; reflexivity).
  rewrite (trial_settled _ _ _ _ _ false Hwf Hp)
    by (apply reject_move_exhausted; exact Ht).
  vm_compute. do 3 f_equal. lra.
Qed.

Lemma corner3_wf : wf corner3.
Proof. concrete_wf. Qed.

Lemma corner3_trial (temperature : R) :
  temperature <> 0%R ->
  ZnModel.trial (ZnModel.with_T corner3 temperature) exhausted
  = Ok (ZnModel.with_T aligned3 temperature, exhausted).
Proof.
  intros Ht.
  assert (Hwf : wf (ZnModel.with_T corner3 temperature))
    by exact (with_T_wf _ _ corner3_wf).
  eassert (Hp : ZnModel.propose (ZnModel.with_T corner3 temperature)
                                exhausted = Ok (_, _))
    by (vm_compute; reflexivity).
  rewrite (trial_settled _ _ _ _ _ false Hwf Hp)
    by (apply reject_move_exhausted; exact Ht).
  vm_compute. do 3 f_equal. lra.
Qed.

(** A pass over [aligned3] whose nine trials all visit (0, 0) flips that
    cell nine times and leaves it in state 1; the next such pass brings it
    back. *)
Lemma aligned3_pass (temperature : R) :
  temperature <> 0%R ->
  ZnModel.metropolis_step (ZnModel.with_T aligned3 temperature) exhausted
  = Ok (ZnModel.with_T corner3 temperature, exhausted).
Proof.
  intros Ht. unfold ZnModel.metropolis_step.
  change (Z.to_nat _) with 9%nat.
  do 4 (rewrite (iterM_step _ _ _ _ _ _ (aligned3_trial temperature Ht));
        rewrite (iterM_step _ _ _ _ _ _ (corner3_trial temperature Ht))).
  rewrite (iterM_step _ _ _ _ _ _ (aligned3_trial temperature Ht)).
  reflexivity.
Qed.

Lemma corner3_pass (temperature : R) :
  temperature <> 0%R ->
  ZnModel.metropolis_step (ZnModel.with_T corner3 temperature) exhausted
  = Ok (ZnModel.with_T aligned3 temperature, exhausted).
Proof.
  intros Ht. unfold ZnModel.metropolis_step.
  change (Z.to_nat _) with 9%nat.
  do 4 (rewrite (iterM_step _ _ _ _ _ _ (corner3_trial temperature Ht));
        rewrite (iterM_step _ _ _ _ _ _ (aligned3_trial temperature Ht))).
  rewrite (iterM_step _ _ _ _ _ _ (corner3_trial temperature Ht)).
  reflexivity.
Qed.

(** What [update] returns once its pass is known. *)
Lemma update_step (lattice_size : Z) (temperature_range : list R)
      (frame : Z) (w : Script.globals) (temperature : R)
      (model : ZnModel.t) (g' : rng) :
  Script.temperature_at temperature_range frame = Ok temperature ->
  ZnModel.metropolis_step (ZnModel.with_T (Script.zn_model w) temperature)
                          (Script.generator w) = Ok (model, g') ->
  Script.update lattice_size temperature_range frame w
  = Ok (Script.mkGlobals model g'
          (Script.energy_data w ++ [ZnModel.energy model])
          (Script.magnetization_data w ++ [ZnModel.magnetization model])
          (if (1 <=? length (Script.energy_data w))%nat
           then Script.specific_heat_data w
                ++ [(Script.np_var
                       (Script.energy_data w ++ [ZnModel.energy model])
                     / (IZR (lattice_size ^ 2) * ZnModel.T model ^ 2))%R]
           else Script.specific_heat_data w)
          (if (1 <=? length (Script.energy_data w))%nat
           then Script.susceptibility_data w
                ++ [(Script.np_var
                       (map IZR (Script.magnetization_data w
                                 ++ [ZnModel.magnetization model]))
                     / (IZR (lattice_size ^ 2) * ZnModel.T model))%R]
           else Script.susceptibility_data w)).
Proof.
  intros Hat Hstep. unfold Script.update. rewrite Hat. simpl.
  rewrite Hstep. rewrite length_app. simpl.
  destruct (length (Script.energy_data w)) as [|k]; [reflexivity|].
  destruct (Z.ltb_spec 1 (Z.of_nat (S k + 1))); [reflexivity|lia].
Qed.

(** Three calls of [update] on [aligned3] with the exhausted generator. *)
Lemma three_frames_run :
  Script.animate 3 [5%R; 1%R; 2%R] [0; 2; 1]
                 (Script.start aligned3 exhausted)
  = Ok three_frames.
Proof.
  unfold Script.animate. cbn [foldR].
  erewrite update_step;
    [|reflexivity|apply aligned3_pass; lra].
  cbn [rbind]. erewrite update_step;
    [|reflexivity|apply corner3_pass; lra].
  cbn [rbind]. erewrite update_step;
    [|reflexivity|apply aligned3_pass; lra].
  cbn [rbind]. unfold three_frames. simpl. f_equal.
  rewrite !np_var_population_variance. unfold population_variance. simpl.
  change (3 ^ 2) with 9.
  f_equal; (f_equal; [|f_equal]); field.
Qed.

(** * The properties of the specification *)

(** C5. On every site (x, y) of a lattice of shape (L, L),
    [calculate_energy(x, y)] returns the sum over the four toroidal
    neighbours ((x+1) mod L, y), ((x-1) mod L, y), (x, (y+1) mod L),
    (x, (y-1) mod L) of -1 for a neighbour in the same state and 0
    otherwise, plus -H when the cell is in state 1 and +H otherwise; for
    L = 3 the reads around (0, 0) are (1,0), (2,0), (0,1), (0,2); and
    [calculate_total_energy()] returns half the sum of the local energies
    of all L*L sites. *)
Theorem calculate_energy_spec (s : ZnModel.t) :
  1 <= ZnModel.L s ->
  square (ZnModel.L s) (ZnModel.lattice s) ->
  (forall x y, site (ZnModel.L s) (x, y) ->
     ZnModel.calculate_energy s x y = Ok (local_energy s x y)
     /\ ZnModel.neighbor_sites s x y
        = [ ((x + 1) mod ZnModel.L s, y); ((x - 1) mod ZnModel.L s, y);
            (x, (y + 1) mod ZnModel.L s); (x, (y - 1) mod ZnModel.L s) ])
  /\ (ZnModel.L s = 3 ->
      ZnModel.neighbor_sites s 0 0 = [(1, 0); (2, 0); (0, 1); (0, 2)])
  /\ ZnModel.calculate_total_energy s
     = Ok (sumR (map (fun p => local_energy s (fst p) (snd p))
                     (sites (ZnModel.L s))) / 2)%R
  /\ length (sites (ZnModel.L s)) = Z.to_nat (ZnModel.L s * ZnModel.L s).
Proof.
  intros Hpos Hsq. split; [|split; [|split]].
  - intros x y Hs. split; [|reflexivity].
    apply calculate_energy_site; assumption.
  - intros HL. unfold ZnModel.neighbor_sites. rewrite HL. reflexivity.
  - apply calculate_total_energy_sites, Hsq.
  - unfold sites.
    rewrite flat_map_constant_length with (c := Z.to_nat (ZnModel.L s)).
    + rewrite range_length. lia.
    + intros x _. rewrite length_map. apply range_length.
Qed.

Lemma calculate_energy_spec_witness :
  square (ZnModel.L aligned3) (ZnModel.lattice aligned3)
  /\ ZnModel.calculate_energy aligned3 0 0 = Ok (local_energy aligned3 0 0)
  /\ ZnModel.neighbor_sites aligned3 0 0 = [(1, 0); (2, 0); (0, 1); (0, 2)]
  /\ length (sites (ZnModel.L aligned3)) = 9%nat.
Proof.
  assert (Hsq : square (ZnModel.L aligned3) (ZnModel.lattice aligned3)).
  { split; [reflexivity|]. repeat constructor. }
  assert (Hpos : 1 <= ZnModel.L aligned3) by (simpl; lia).
  destruct (calculate_energy_spec aligned3 Hpos Hsq)
    as (Hloc & H3 & _ & Hlen).
  split; [exact Hsq|]. split; [|split].
  - apply Hloc. split; simpl; lia.
  - apply H3. reflexivity.
  - exact Hlen.
Defined.

(** C2, as the code has it.  On the 2 x 2 checkerboard [[0,1],[1,0]] with
    two states and no field every neighbour of every cell is in the other
    state, so each local energy is 0: [calculate_total_energy()] returns 0
    and [calculate_magnetization()] returns 0. *)
Theorem checkerboard_observables (temperature e : R) (m : Z) :
  ZnModel.calculate_total_energy (checkerboard temperature e m) = Ok 0%R
  /\ ZnModel.calculate_magnetization (checkerboard temperature e m) = 0.
Proof.
  split; [|reflexivity].
  vm_compute. f_equal. lra.
Qed.

(** C2 with its value +4 fails: the total energy of the checkerboard is
    another number. *)
Lemma checkerboard_energy_is_not_4 :
  exists total,
    ZnModel.calculate_total_energy (checkerboard 1 0 0) = Ok total
    /\ total <> 4%R.
Proof.
  exists 0%R. split; [|lra].
  vm_compute. f_equal. lra.
Qed.




(** C3, as the code has it.  The constructor checks nothing itself and
    there is no InvalidConfiguration error; what fails is numpy's
    [randint], with ValueError.  For L >= 1 of an addressable size
    (8 L^2 < 2^63, that is L < 2^30) it returns a complete instance for
    every n from 1 to 2^63, n = 1 included; for L >= 1 it fails with
    ValueError when n <= 0, when n > 2^63, and when the size is not
    addressable; for L = 0 and n from 1 to 2^63 it returns an instance with
    an empty lattice, energy 0 and magnetization 0; for L < 0 it fails with
    ValueError.  A failure returns no instance. *)
Theorem init_outcomes (lattice_size n_states : Z)
        (temperature external_field : R) (g : rng) :
  (1 <= lattice_size -> addressable lattice_size ->
   1 <= n_states -> n_states - 1 <= int64_max ->
   exists s g',
     ZnModel.init lattice_size n_states temperature external_field g
     = Ok (s, g')
     /\ constructed lattice_size n_states temperature external_field s)
  /\ (1 <= lattice_size ->
      n_states <= 0 \/ int64_max < n_states - 1
      \/ ~ addressable lattice_size ->
      ZnModel.init lattice_size n_states temperature external_field g
      = Raise ValueError)
  /\ (lattice_size = 0 -> 1 <= n_states -> n_states - 1 <= int64_max ->
      exists s,
        ZnModel.init lattice_size n_states temperature external_field g
        = Ok (s, g)
        /\ ZnModel.lattice s = [] /\ ZnModel.energy s = 0%R
        /\ ZnModel.magnetization s = 0)
  /\ (lattice_size < 0 ->
      ZnModel.init lattice_size n_states temperature external_field g
      = Raise ValueError).
Proof.
  split; [|split; [|split]].
  - apply init_total.
  - intros HL Hbad. apply init_refused; [exact HL|tauto].
  - intros -> Hn _.
    exists (ZnModel.mk 0 n_states temperature external_field [] (0 / 2)%R 0).
    split; [reflexivity|]. simpl. repeat split. lra.
  - intros HL. unfold ZnModel.init, bind, randint_square.
    destruct (Z.ltb_spec lattice_size 0); [reflexivity|lia].
Qed.

Lemma init_outcomes_witness :
  (exists s g',
     ZnModel.init 3 1 1 0 exhausted = Ok (s, g') /\ constructed 3 1 1 0 s)
  /\ ZnModel.init 3 0 1 0 exhausted = Raise ValueError
  /\ ZnModel.init 3 (2 ^ 63 + 1) 1 0 exhausted = Raise ValueError
  /\ ZnModel.init (2 ^ 30) 2 1 0 exhausted = Raise ValueError
  /\ ZnModel.init (-1) 2 1 0 exhausted = Raise ValueError.
Proof.
  destruct (init_outcomes 3 1 1 0 exhausted) as (Hok & _).
  destruct (init_outcomes 3 0 1 0 exhausted) as (_ & Hraise & _).
  destruct (init_outcomes 3 (2 ^ 63 + 1) 1 0 exhausted) as (_ & Hwide & _).
  destruct (init_outcomes (2 ^ 30) 2 1 0 exhausted) as (_ & Hbig & _).
  destruct (init_outcomes (-1) 2 1 0 exhausted) as (_ & _ & _ & Hneg).
  split; [apply Hok; vm_compute; congruence|].
  split; [apply Hraise; [lia|left; lia]|].
  split; [apply Hwide; [lia|right; left; vm_compute; reflexivity]|].
  split; [apply Hbig; [lia|right; right; vm_compute; tauto]|].
  apply Hneg; lia.
Defined.

(** C3 as stated fails: with a single state (n = 1 < 2) the constructor
    raises nothing and returns the all-zero 2 x 2 lattice with its energy
    and magnetization. *)
Lemma init_accepts_a_single_state :
  (2 <= 0 \/ 1 < 2)
  /\ ZnModel.init 2 1 1 0 exhausted
     = Ok (ZnModel.mk 2 1 1 0 [[0; 0]; [0; 0]] (-8) (-4), exhausted).
Proof.
  split; [right; lia|].
  vm_compute. do 3 f_equal. lra.
Qed.

(** C4. In a trial at a positive temperature: when [delta_energy <= 0] the
    move is accepted and the generator is left as the proposal left it (no
    acceptance draw); when [delta_energy > 0] a value [u] of [0, 1) is drawn,
    the move is accepted if [u < exp(-delta_energy / T)], and otherwise the
    cell is written back to [old_spin] and the instance is as before the
    trial. *)
Theorem metropolis_acceptance (s : ZnModel.t) (g : rng) :
  wf s -> (0 < ZnModel.T s)%R ->
  exists p g1,
    ZnModel.propose s g = Ok (p, g1)
    /\ ZnModel.old_spin p
       = cell (ZnModel.lattice s) (ZnModel.site_x p) (ZnModel.site_y p)
    /\ cell (ZnModel.lattice (accepted s p)) (ZnModel.site_x p)
            (ZnModel.site_y p)
       = ZnModel.new_spin p
    /\ ((ZnModel.delta_energy p <= 0)%R ->
        ZnModel.trial s g = Ok (accepted s p, g1))
    /\ ((0 < ZnModel.delta_energy p)%R ->
        exists u g2,
          rand g1 = Ok (u, g2) /\ (0 <= u < 1)%R
          /\ ((u < exp (- ZnModel.delta_energy p / ZnModel.T s))%R ->
              ZnModel.trial s g = Ok (accepted s p, g2))
          /\ (~ (u < exp (- ZnModel.delta_energy p / ZnModel.T s))%R ->
              ZnModel.trial s g = Ok (s, g2))).
Proof.
  intros Hwf HT.
  destruct (propose_total s g Hwf) as (p & g1 & Hp & Hpr & _).
  exists p, g1. split; [exact Hp|]. split; [apply Hpr|]. split; [|split].
  - simpl. apply (cell_put_eq (ZnModel.L s)); [apply Hwf|apply Hpr].
  - intros Hd.
    apply (trial_settled s g g1 g1 p false Hwf Hp).
    apply reject_move_downhill, Hd.
  - intros Hd.
    destruct (reject_move_uphill (ZnModel.delta_energy p) (ZnModel.T s) g1)
      as (u & g2 & Eu & Hu & _ & Hr); [exact Hd|lra|].
    exists u, g2. split; [exact Eu|]. split; [exact Hu|]. split.
    + intros Hlt.
      apply (trial_settled s g g1 g2 p false Hwf Hp).
      rewrite Hr. destruct (Rge_dec u _); [lra|reflexivity].
    + intros Hge.
      apply (trial_settled s g g1 g2 p true Hwf Hp).
      rewrite Hr. destruct (Rge_dec u _); [reflexivity|lra].
Qed.

Lemma metropolis_acceptance_witness :
  exists p g1,
    ZnModel.propose aligned3 exhausted = Ok (p, g1)
    /\ ((ZnModel.delta_energy p <= 0)%R ->
        ZnModel.trial aligned3 exhausted = Ok (accepted aligned3 p, g1)).
Proof.
  destruct (metropolis_acceptance aligned3 exhausted aligned3_wf)
    as (p & g1 & Hp & _ & _ & Hdown & _); [simpl; lra|].
  exists p, g1. split; [exact Hp|exact Hdown].
Defined.

(** C7. A rejected trial leaves the instance as it found it: cell (x, y)
    holds its old value, no other cell has changed, and [energy] and
    [magnetization] are the values they were. *)
Theorem rejection_changes_nothing (s : ZnModel.t) (g g1 g2 : rng)
        (p : ZnModel.proposal) :
  wf s ->
  ZnModel.propose s g = Ok (p, g1) ->
  ZnModel.reject_move (ZnModel.delta_energy p) (ZnModel.T s) g1
  = Ok (true, g2) ->
  exists s',
    ZnModel.trial s g = Ok (s', g2)
    /\ cell (ZnModel.lattice s') (ZnModel.site_x p) (ZnModel.site_y p)
       = ZnModel.old_spin p
    /\ ZnModel.lattice s' = ZnModel.lattice s
    /\ ZnModel.energy s' = ZnModel.energy s
    /\ ZnModel.magnetization s' = ZnModel.magnetization s.
Proof.
  intros Hwf Hp Hr. exists s.
  split; [exact (trial_settled s g g1 g2 p true Hwf Hp Hr)|].
  destruct (propose_total s g Hwf) as (p0 & g0 & Hp0 & Hpr & _).
  rewrite Hp in Hp0. injection Hp0 as <- <-.
  split; [symmetry; apply Hpr|]. repeat split.
Qed.

Lemma rejection_changes_nothing_witness :
  exists s',
    ZnModel.trial aligned3 half_next = Ok (s', exhausted)
    /\ cell (ZnModel.lattice s') 0 0 = 0
    /\ ZnModel.lattice s' = ZnModel.lattice aligned3
    /\ ZnModel.energy s' = ZnModel.energy aligned3
    /\ ZnModel.magnetization s' = ZnModel.magnetization aligned3.
Proof.
  exact (rejection_changes_nothing aligned3 half_next half_next exhausted
           flip_corner aligned3_wf flip_corner_proposed flip_corner_rejected).
Defined.



(** C10. In every instance built from a valid configuration and changed by
    trials only, [magnetization] is exactly twice the number of cells in
    state 1 minus L^2; hence it lies in [-L^2, L^2] and has the parity of
    L^2; and a trial changes it by -2, 0 or +2 (keeping the equation).  All
    of it is integer arithmetic. *)
Theorem magnetization_bookkeeping (s : ZnModel.t) (g : rng) :
  reachable s ->
  ZnModel.magnetization s
  = 2 * count_ones (ZnModel.lattice s) - ZnModel.L s ^ 2
  /\ ZnModel.magnetization s = ZnModel.calculate_magnetization s
  /\ - ZnModel.L s ^ 2 <= ZnModel.magnetization s <= ZnModel.L s ^ 2
  /\ Z.even (ZnModel.magnetization s) = Z.even (ZnModel.L s ^ 2)
  /\ (forall s' g',
        ZnModel.trial s g = Ok (s', g') ->
        ZnModel.magnetization s'
        = 2 * count_ones (ZnModel.lattice s') - ZnModel.L s' ^ 2
        /\ (ZnModel.magnetization s' - ZnModel.magnetization s = -2
            \/ ZnModel.magnetization s' - ZnModel.magnetization s = 0
            \/ ZnModel.magnetization s' - ZnModel.magnetization s = 2)).
Proof.
  intros Hreach.
  pose proof (reachable_wf s Hreach) as Hwf.
  pose proof (reachable_magnetization s Hreach) as Hm.
  destruct (magnetization_exact_bounds s Hwf Hm) as [Hb Hpar].
  split; [exact Hm|]. split; [|split; [exact Hb|split; [exact Hpar|]]].
  - rewrite calculate_magnetization_count; [exact Hm| |apply Hwf].
    destruct Hwf. lia.
  - intros s' g' Ht. split.
    + apply (reachable_magnetization s'), (reach_trial s s' g g' Hreach Ht).
    + destruct (trial_cases s s' g g' Hwf Ht) as [->|(p & Hpr & ->)].
      * right; left. lia.
      * simpl. unfold ZnModel.contribution.
        destruct (ZnModel.new_spin p =? 1), (ZnModel.old_spin p =? 1); lia.
Qed.

Lemma magnetization_bookkeeping_witness :
  ZnModel.magnetization aligned3
  = 2 * count_ones (ZnModel.lattice aligned3) - ZnModel.L aligned3 ^ 2
  /\ - 9 <= ZnModel.magnetization aligned3 <= 9.
Proof.
  destruct (magnetization_bookkeeping aligned3 exhausted aligned3_reachable)
    as (Hm & _ & Hb & _).
  split; [exact Hm|exact Hb].
Defined.

(** One call of [update] on well-formed globals returns and records one more
    pass. *)
Lemma update_recorded (lattice_size : Z) (temperature_range : list R)
      (frame : Z) (k : nat) (w : Script.globals) :
  wf (Script.zn_model w) -> recorded lattice_size k w ->
  Forall (fun temperature => temperature <> 0%R) temperature_range ->
  0 <= frame < Z.of_nat (length temperature_range) ->
  exists w',
    Script.update lattice_size temperature_range frame w = Ok w'
    /\ wf (Script.zn_model w')
    /\ ZnModel.L (Script.zn_model w') = ZnModel.L (Script.zn_model w)
    /\ recorded lattice_size (S k) w'
    /\ Script.temperature_at temperature_range frame
       = Ok (ZnModel.T (Script.zn_model w')).
Proof.
  intros Hwf Hrec Hnz Hf.
  destruct (temperature_at_frame temperature_range frame Hf)
    as (temp & Hat & Hlook).
  assert (Htemp : temp <> 0%R).
  { rewrite Forall_lookup in Hnz. exact (Hnz _ _ Hlook). }
  destruct (metropolis_step_total
              (ZnModel.with_T (Script.zn_model w) temp) (Script.generator w))
    as (model & g' & Hstep & Hwf' & HL' & HT' & _ & _);
    [apply with_T_wf, Hwf|exact Htemp|].
  simpl in HL', HT'.
  destruct Hrec as [He Hm _ Hsh Hsu _].
  unfold Script.update. rewrite Hat. simpl. rewrite Hstep.
  rewrite length_app, He. simpl.
  destruct (Z.ltb_spec 1 (Z.of_nat (k + 1))) as [Hk|Hk].
  - eexists. split; [reflexivity|]. simpl.
    split; [exact Hwf'|]. split; [exact HL'|]. split; [|congruence].
    constructor; simpl; rewrite ?length_app, ?last_snoc; simpl; try lia.
    + intros _. split; reflexivity.
    + intros _. split; reflexivity.
  - eexists. split; [reflexivity|]. simpl.
    split; [exact Hwf'|]. split; [exact HL'|]. split; [|congruence].
    constructor; simpl; rewrite ?length_app, ?last_snoc; simpl; try lia.
    intros _. split; reflexivity.
Qed.

Lemma animate_recorded (lattice_size : Z) (temperature_range : list R)
      (frames : list Z) (model : ZnModel.t) (g : rng) :
  wf model ->
  Forall (fun temperature => temperature <> 0%R) temperature_range ->
  Forall (fun frame => 0 <= frame < Z.of_nat (length temperature_range))
         frames ->
  exists w,
    Script.animate lattice_size temperature_range frames
                   (Script.start model g) = Ok w
    /\ wf (Script.zn_model w)
    /\ ZnModel.L (Script.zn_model w) = ZnModel.L model
    /\ recorded lattice_size (length frames) w
    /\ (forall frame, last frames = Some frame ->
          Script.temperature_at temperature_range frame
          = Ok (ZnModel.T (Script.zn_model w))).
Proof.
  intros Hwf Hnz. induction frames as [|frame frames IH] using rev_ind;
    intros Hframes.
  - exists (Script.start model g). split; [reflexivity|].
    split; [exact Hwf|]. split; [reflexivity|]. split.
    + constructor; simpl; try reflexivity; lia.
    + discriminate.
  - apply Forall_app in Hframes as [Hfs Hf]. inversion_clear Hf as [|? ? Hf' _].
    destruct (IH Hfs) as (w & Hw & Hwfw & HLw & Hrec & _).
    destruct (update_recorded lattice_size temperature_range frame
                (length frames) w Hwfw Hrec Hnz Hf')
      as (w' & Hu & Hwf' & HL' & Hrec' & HT').
    exists w'. unfold Script.animate in *. rewrite foldR_app, Hw. simpl.
    rewrite Hu. split; [reflexivity|]. split; [exact Hwf'|].
    split; [congruence|]. split.
    + rewrite length_app. simpl.
      replace (length frames + 1)%nat with (S (length frames)) by lia.
      exact Hrec'.
    + intros f. rewrite last_snoc. intros [= <-]. exact HT'.
Qed.

(** C6. Starting from empty histories, after one completed pass no
    specific heat and no susceptibility has been produced; after k >= 2
    completed passes (frames of the schedule with non-zero temperatures) the
    latest specific heat is the population variance of the k recorded
    energies divided by (L^2 * T^2), and the latest susceptibility is the
    population variance of the k recorded magnetizations divided by
    (L^2 * T), with T the temperature of the last pass.  After exactly two
    passes, with energies e1, e2 and magnetizations m1, m2, these are the
    single values ((e1 - e2) / 2)^2 / (L^2 * T^2) and
    ((m1 - m2) / 2)^2 / (L^2 * T). *)
Theorem observables_after_passes (temperature_range : list R)
        (frames : list Z) (model : ZnModel.t) (g : rng) :
  wf model ->
  Forall (fun temperature => temperature <> 0%R) temperature_range ->
  Forall (fun frame => 0 <= frame < Z.of_nat (length temperature_range))
         frames ->
  exists w,
    Script.animate (ZnModel.L model) temperature_range frames
                   (Script.start model g) = Ok w
    /\ length (Script.energy_data w) = length frames
    /\ length (Script.magnetization_data w) = length frames
    /\ (length frames = 1%nat ->
        Script.specific_heat_data w = []
        /\ Script.susceptibility_data w = [])
    /\ ((2 <= length frames)%nat ->
        exists frame temperature,
          last frames = Some frame
          /\ Script.temperature_at temperature_range frame = Ok temperature
          /\ ZnModel.T (Script.zn_model w) = temperature
          /\ last (Script.energy_data w)
             = Some (ZnModel.energy (Script.zn_model w))
          /\ last (Script.magnetization_data w)
             = Some (ZnModel.magnetization (Script.zn_model w))
          /\ last (Script.specific_heat_data w)
             = Some (population_variance (Script.energy_data w)
                     / (IZR (ZnModel.L (Script.zn_model w) ^ 2)
                        * temperature ^ 2))%R
          /\ last (Script.susceptibility_data w)
             = Some (population_variance
                       (map IZR (Script.magnetization_data w))
                     / (IZR (ZnModel.L (Script.zn_model w) ^ 2)
                        * temperature))%R)
    /\ (length frames = 2%nat ->
        exists e1 e2 m1 m2,
          Script.energy_data w = [e1; e2]
          /\ Script.magnetization_data w = [m1; m2]
          /\ Script.specific_heat_data w
             = [(((e1 - e2) / 2) ^ 2
                 / (IZR (ZnModel.L (Script.zn_model w) ^ 2)
                    * ZnModel.T (Script.zn_model w) ^ 2))%R]
          /\ Script.susceptibility_data w
             = [(((IZR m1 - IZR m2) / 2) ^ 2
                 / (IZR (ZnModel.L (Script.zn_model w) ^ 2)
                    * ZnModel.T (Script.zn_model w)))%R]).
Proof.
  intros Hwf Hnz Hframes.
  destruct (animate_recorded (ZnModel.L model) temperature_range frames
              model g Hwf Hnz Hframes)
    as (w & Hw & _ & HL & [He Hm Hcur Hsh Hsu Hlatest] & HT).
  rewrite !np_var_population_variance in Hlatest.
  exists w. split; [exact Hw|]. split; [exact He|]. split; [exact Hm|].
  split; [|split].
  - intros H1. rewrite H1 in Hsh, Hsu. simpl in Hsh, Hsu.
    split; apply length_zero_iff_nil; assumption.
  - intros H2.
    destruct (last frames) as [frame|] eqn:Hlast.
    + exists frame, (ZnModel.T (Script.zn_model w)).
      destruct (Hcur ltac:(lia)) as [Hce Hcm].
      destruct (Hlatest H2) as [Hc Hx]. rewrite HL.
      repeat split; try assumption. apply HT. reflexivity.
    + apply last_None in Hlast. subst frames. simpl in H2. lia.
  - intros H2. rewrite H2 in He, Hm, Hsh, Hsu, Hlatest. simpl in Hsh, Hsu.
    destruct (Hlatest ltac:(lia)) as [Hc Hx]. rewrite HL.
    destruct (Script.energy_data w) as [|e1 [|e2 [|? ?]]];
      try discriminate He.
    destruct (Script.magnetization_data w) as [|m1 [|m2 [|? ?]]];
      try discriminate Hm.
    destruct (Script.specific_heat_data w) as [|c [|? ?]];
      try discriminate Hsh.
    destruct (Script.susceptibility_data w) as [|x [|? ?]];
      try discriminate Hsu.
    exists e1, e2, m1, m2. split; [reflexivity|]. split; [reflexivity|].
    simpl in Hc, Hx. injection Hc as ->. injection Hx as ->.
    change [IZR m1; IZR m2] with (map IZR [m1; m2]).
    simpl map. rewrite !population_variance_pair. split; reflexivity.
Qed.

(** Two passes over [aligned3] at the temperatures 5 and 1: the energies
    -14 and -18 give the specific heat 4 / 9, the magnetizations -7 and -9
    the susceptibility 1 / 9. *)
Lemma observables_after_passes_witness :
  exists w,
    Script.animate 3 [5%R; 1%R] [0; 1] (Script.start aligned3 exhausted)
    = Ok w
    /\ Script.energy_data w = [(-14)%R; (-18)%R]
    /\ Script.magnetization_data w = [-7; -9]
    /\ Script.specific_heat_data w = [(4 / 9)%R]
    /\ Script.susceptibility_data w = [(1 / 9)%R].
Proof.
  destruct (observables_after_passes [5%R; 1%R] [0; 1] aligned3 exhausted)
    as (w & Hw & _ & _ & _ & _ & Hpair).
  - exact aligned3_wf.
  - repeat constructor; lra.
  - repeat constructor; simpl; lia.
  - exists w. split; [exact Hw|].
    destruct (Hpair eq_refl) as (e1 & e2 & m1 & m2 & He & Hm & Hc & Hx).
    assert (Hrun : exists c x,
              Script.animate 3 [5%R; 1%R] [0; 1]
                             (Script.start aligned3 exhausted)
              = Ok (Script.mkGlobals (ZnModel.with_T aligned3 1) exhausted
                      [(-14)%R; (-18)%R] [-7; -9] c x)).
    { unfold Script.animate. cbn [foldR].
      erewrite update_step; [|reflexivity|apply aligned3_pass; lra].
      cbn [rbind]. erewrite update_step;
        [|reflexivity|apply corner3_pass; lra].
      cbn [rbind]. eexists _, _. reflexivity. }
    destruct Hrun as (c & x & Hrun). simpl in Hw. rewrite Hrun in Hw.
    injection Hw as <-. simpl in *.
    injection He as <- <-. injection Hm as <- <-.
    split; [reflexivity|]. split; [reflexivity|].
    rewrite Hc, Hx. change (3 ^ 2) with 9. split; f_equal; field.
Defined.

(** C1, at an input where the code breaks it.  [ZnModel(2, 2, 1, 3)] with
    the all-zero initial lattice is built with energy -2, its full
    recomputation.  One pass that flips the four cells in turn accepts every
    move and leaves [energy] at -26 while [calculate_total_energy()] on the
    resulting lattice returns -14: the two differ by 12, the field times the
    number of accepted moves.  The magnetization is still its
    recomputation. *)
Theorem energy_drifts_under_field :
  ZnModel.init 2 2 1 3 exhausted = Ok (biased2, exhausted)
  /\ ZnModel.calculate_total_energy biased2 = Ok (ZnModel.energy biased2)
  /\ ZnModel.metropolis_step biased2 sweep2 = Ok (flipped2, exhausted)
  /\ ZnModel.calculate_total_energy flipped2 = Ok (-14)%R
  /\ (ZnModel.energy flipped2 - -14 = -12)%R
  /\ ZnModel.calculate_magnetization flipped2 = ZnModel.magnetization flipped2.
Proof.
  split; [|split; [|split; [|split; [|split]]]].
  - exact biased2_init.
  - vm_compute. f_equal. lra.
  - unfold ZnModel.metropolis_step.
    change (Z.to_nat (ZnModel.L biased2 * ZnModel.L biased2)) with 4%nat.
    do 4 downhill_trial.
    simpl. unfold ret, flipped2, accepted. simpl. do 3 f_equal. lra.
  - vm_compute. f_equal. lra.
  - simpl. lra.
  - reflexivity.
Qed.

(** * The energy bookkeeping and the field *)

(** ** Sums over the torus *)

Lemma sumZ_cons (v : Z) (l : list Z) : sumZ (v :: l) = v + sumZ l.
Proof. reflexivity. Qed.

Lemma sumZ_map_add {A : Type} (f g : A -> Z) (l : list A) :
  sumZ (map (fun p => f p + g p) l) = sumZ (map f l) + sumZ (map g l).
Proof.
  induction l as [|a l IH]; [reflexivity|].
  simpl map. rewrite !sumZ_cons, IH. lia.
Qed.

Lemma sumZ_map_ext_in {A : Type} (f g : A -> Z) (l : list A) :
  (forall p, In p l -> f p = g p) -> sumZ (map f l) = sumZ (map g l).
Proof. intros Hfg. f_equal. apply map_ext_in, Hfg. Qed.

Lemma sumZ_zero {A : Type} (f : A -> Z) (l : list A) :
  (forall p, In p l -> f p = 0) -> sumZ (map f l) = 0.
Proof.
  induction l as [|a l IH]; intros Hf; [reflexivity|].
  simpl map. rewrite sumZ_cons, Hf by (left; reflexivity).
  rewrite IH; [reflexivity|]. intros p Hp. apply Hf. right. exact Hp.
Qed.

Lemma sumZ_point {A : Type} (f : A -> Z) (l : list A) (r : A) :
  List.NoDup l -> In r l -> (forall p, In p l -> p <> r -> f p = 0) ->
  sumZ (map f l) = f r.
Proof.
  induction 1 as [|a l Ha Hnd IH]; intros Hin Hf; [destruct Hin|].
  simpl map. rewrite sumZ_cons. destruct Hin as [->|Hin].
  - rewrite sumZ_zero; [lia|].
    intros p Hp. apply Hf; [right; exact Hp|]. intros ->. contradiction.
  - rewrite IH; [|exact Hin|].
    + rewrite Hf; [lia|left; reflexivity|]. intros ->. contradiction.
    + intros p Hp. apply Hf. right. exact Hp.
Qed.

Lemma range_NoDup (k : Z) : List.NoDup (range k).
Proof.
  unfold range. apply Finite.Injective_map_NoDup; [|apply seq_NoDup].
  intros i j. apply Nat2Z.inj.
Qed.

Lemma sumZ_sites (size : Z) (w : Z * Z -> Z) :
  sumZ (map w (sites size))
  = sumZ (map (fun x => sumZ (map (fun y => w (x, y)) (range size)))
              (range size)).
Proof.
  unfold sites. induction (range size) as [|x xs IH] at 2 4; [reflexivity|].
  cbn [flat_map map]. rewrite map_app, sumZ_app, map_map, sumZ_cons, IH.
  reflexivity.
Qed.

Lemma sumZ_sites_point (size : Z) (f : Z * Z -> Z) (r : Z * Z) :
  site size r -> (forall p, site size p -> p <> r -> f p = 0) ->
  sumZ (map f (sites size)) = f r.
Proof.
  intros [Hx Hy] Hf. rewrite sumZ_sites.
  rewrite (sumZ_point _ _ (fst r)).
  - rewrite (sumZ_point _ _ (snd r)).
    + destruct r; reflexivity.
    + apply range_NoDup.
    + apply range_spec, Hy.
    + intros y Hy' Hne. apply range_spec in Hy'. apply Hf.
      * split; simpl; lia.
      * destruct r as [rx ry]. simpl in *. congruence.
  - apply range_NoDup.
  - apply range_spec, Hx.
  - intros x Hx' Hne. apply sumZ_zero. intros y Hy'.
    apply range_spec in Hx', Hy'. apply Hf.
    + split; simpl; lia.
    + destruct r as [rx ry]. simpl in *. congruence.
Qed.

Lemma sumZ_shift_up (size : Z) (f : Z -> Z) :
  1 <= size ->
  sumZ (map (fun x => f ((x + 1) mod size)) (range size))
  = sumZ (map f (range size)).
Proof.
  intros Hs. unfold range.
  destruct (Z.to_nat size) as [|k] eqn:Ek; [lia|].
  assert (Hsize : size = Z.of_nat k + 1) by lia. clear Ek. subst size.
  rewrite seq_S at 1. rewrite !map_app, sumZ_app. simpl map at 2.
  rewrite <- cons_seq, <- seq_shift. rewrite !map_map.
  cbn [map]. rewrite !sumZ_cons, map_map. change (sumZ []) with 0.
  rewrite Nat.add_0_l, Z.mod_same by lia.
  rewrite (sumZ_map_ext_in _ (fun i => f (Z.of_nat (S i)))).
  - change (Z.of_nat 0) with 0. lia.
  - intros i Hi. apply in_seq in Hi. f_equal.
    rewrite Z.mod_small by lia. lia.
Qed.

Lemma sumZ_shift_down (size : Z) (f : Z -> Z) :
  1 <= size ->
  sumZ (map (fun x => f ((x - 1) mod size)) (range size))
  = sumZ (map f (range size)).
Proof.
  intros Hs.
  rewrite <- (sumZ_shift_up size (fun x => f ((x - 1) mod size)) Hs).
  apply sumZ_map_ext_in. intros x Hx. apply range_spec in Hx. f_equal.
  rewrite Zminus_mod_idemp_l. replace (x + 1 - 1) with x by lia.
  apply Z.mod_small. lia.
Qed.

(** Summing over the neighbours of all sites is summing over all sites. *)
Lemma sumZ_x_next (size : Z) (F : Z * Z -> Z) :
  1 <= size ->
  sumZ (map (fun p => F (x_next size p)) (sites size))
  = sumZ (map F (sites size)).
Proof.
  intros Hs. rewrite !sumZ_sites. unfold x_next. simpl.
  exact (sumZ_shift_up size
           (fun x => sumZ (map (fun y => F (x, y)) (range size))) Hs).
Qed.

Lemma sumZ_x_prev (size : Z) (F : Z * Z -> Z) :
  1 <= size ->
  sumZ (map (fun p => F (x_prev size p)) (sites size))
  = sumZ (map F (sites size)).
Proof.
  intros Hs. rewrite !sumZ_sites. unfold x_prev. simpl.
  exact (sumZ_shift_down size
           (fun x => sumZ (map (fun y => F (x, y)) (range size))) Hs).
Qed.

Lemma sumZ_y_next (size : Z) (F : Z * Z -> Z) :
  1 <= size ->
  sumZ (map (fun p => F (y_next size p)) (sites size))
  = sumZ (map F (sites size)).
Proof.
  intros Hs. rewrite !sumZ_sites. unfold y_next. simpl.
  apply sumZ_map_ext_in. intros x _.
  exact (sumZ_shift_up size (fun y => F (x, y)) Hs).
Qed.

Lemma sumZ_y_prev (size : Z) (F : Z * Z -> Z) :
  1 <= size ->
  sumZ (map (fun p => F (y_prev size p)) (sites size))
  = sumZ (map F (sites size)).
Proof.
  intros Hs. rewrite !sumZ_sites. unfold y_prev. simpl.
  apply sumZ_map_ext_in. intros x _.
  exact (sumZ_shift_down size (fun y => F (x, y)) Hs).
Qed.

Lemma mod_next_prev (size x : Z) :
  0 <= x < size -> ((x + 1) mod size - 1) mod size = x.
Proof.
  intros Hx. rewrite Zminus_mod_idemp_l.
  replace (x + 1 - 1) with x by lia. apply Z.mod_small. lia.
Qed.

Lemma mod_prev_next (size x : Z) :
  0 <= x < size -> ((x - 1) mod size + 1) mod size = x.
Proof.
  intros Hx. rewrite Zplus_mod_idemp_l.
  replace (x - 1 + 1) with x by lia. apply Z.mod_small. lia.
Qed.

Lemma x_prev_next (size : Z) (p : Z * Z) :
  site size p -> x_prev size (x_next size p) = p.
Proof.
  intros [Hx _]. destruct p as [x y]. unfold x_prev, x_next. simpl in *.
  rewrite mod_next_prev by lia. reflexivity.
Qed.

Lemma x_next_prev (size : Z) (p : Z * Z) :
  site size p -> x_next size (x_prev size p) = p.
Proof.
  intros [Hx _]. destruct p as [x y]. unfold x_prev, x_next. simpl in *.
  rewrite mod_prev_next by lia. reflexivity.
Qed.

Lemma y_prev_next (size : Z) (p : Z * Z) :
  site size p -> y_prev size (y_next size p) = p.
Proof.
  intros [_ Hy]. destruct p as [x y]. unfold y_prev, y_next. simpl in *.
  rewrite mod_next_prev by lia. reflexivity.
Qed.

Lemma y_next_prev (size : Z) (p : Z * Z) :
  site size p -> y_next size (y_prev size p) = p.
Proof.
  intros [_ Hy]. destruct p as [x y]. unfold y_prev, y_next. simpl in *.
  rewrite mod_prev_next by lia. reflexivity.
Qed.

Section OneCellChanged.

Variable size : Z.
Variables c c' : Z * Z -> Z.
Variable r : Z * Z.

Hypothesis r_site : site size r.
Hypothesis elsewhere : forall p, site size p -> p <> r -> c' p = c p.

(** How the pair energies towards one neighbour change: once through the
    first cell of the pair at [r], once through the second cell of the pair
    that starts at the opposite neighbour of [r]. *)
Lemma directed_change (nb nb' : Z * Z -> Z * Z) :
  (forall p, site size p -> nb' (nb p) = p) ->
  (forall F, sumZ (map (fun p => F (nb p)) (sites size))
             = sumZ (map F (sites size))) ->
  directed size nb c' - directed size nb c
  = (pair_energy (c' r) (c' (nb r)) - pair_energy (c r) (c' (nb r)))
    + (pair_energy (c (nb' r)) (c' r) - pair_energy (c (nb' r)) (c r)).
Proof.
  intros Hinv Hsum.
  set (A := fun p => pair_energy (c' p) (c' (nb p))
                     - pair_energy (c p) (c' (nb p))).
  set (K := fun q => pair_energy (c (nb' q)) (c' q)
                     - pair_energy (c (nb' q)) (c q)).
  assert (HA : sumZ (map A (sites size)) = A r).
  { apply sumZ_sites_point; [exact r_site|].
    intros p Hp Hne. unfold A. rewrite (elsewhere p Hp Hne). lia. }
  assert (HK : sumZ (map (fun p => K (nb p)) (sites size)) = K r).
  { rewrite (Hsum K). apply sumZ_sites_point; [exact r_site|].
    intros p Hp Hne. unfold K. rewrite (elsewhere p Hp Hne). lia. }
  assert (Hsplit :
    directed size nb c'
    = sumZ (map A (sites size))
      + sumZ (map (fun p => K (nb p)) (sites size))
      + directed size nb c).
  { unfold directed. rewrite <- !sumZ_map_add.
    apply sumZ_map_ext_in. intros p Hp. apply sites_spec in Hp.
    unfold A, K. rewrite (Hinv p Hp). lia. }
  rewrite Hsplit, HA, HK. unfold A, K. lia.
Qed.

End OneCellChanged.

Lemma pair_energy_sym (a b : Z) : pair_energy a b = pair_energy b a.
Proof. unfold pair_energy. rewrite (Z.eqb_sym a b). reflexivity. Qed.

Lemma pair_energy_same (a : Z) : pair_energy a a = -1.
Proof. unfold pair_energy. rewrite Z.eqb_refl. reflexivity. Qed.

Lemma sumZ_bonds (size : Z) (c : Z * Z -> Z) :
  sumZ (map (bonds size c) (sites size))
  = directed size (x_next size) c + directed size (x_prev size) c
    + directed size (y_next size) c + directed size (y_prev size) c.
Proof.
  unfold directed, bonds. rewrite <- !sumZ_map_add. reflexivity.
Qed.

Lemma neighbours_are_sites (size : Z) (p : Z * Z) :
  site size p ->
  site size (x_next size p) /\ site size (x_prev size p)
  /\ site size (y_next size p) /\ site size (y_prev size p).
Proof.
  intros [Hx Hy]. unfold site, x_next, x_prev, y_next, y_prev. simpl.
  assert (Hpos : 0 < size) by lia.
  pose proof (Z.mod_pos_bound (fst p + 1) _ Hpos).
  pose proof (Z.mod_pos_bound (fst p - 1) _ Hpos).
  pose proof (Z.mod_pos_bound (snd p + 1) _ Hpos).
  pose proof (Z.mod_pos_bound (snd p - 1) _ Hpos).
  repeat split; lia.
Qed.

(** Changing one cell changes the sum of all local pair energies by twice
    the change of the local pair energy of that cell. *)
Lemma bonds_change (size : Z) (c c' : Z * Z -> Z) (r : Z * Z) :
  site size r ->
  (forall p, site size p -> p <> r -> c' p = c p) ->
  sumZ (map (bonds size c') (sites size))
  = sumZ (map (bonds size c) (sites size))
    + 2 * (bonds size c' r - bonds size c r).
Proof.
  intros Hr Hother.
  assert (Hs : 1 <= size) by (destruct Hr; lia).
  destruct (neighbours_are_sites size r Hr) as (Hxn & Hxp & Hyn & Hyp).
  pose proof (directed_change size c c' r Hr Hother
                (x_next size) (x_prev size)
                (x_prev_next size) (fun F => sumZ_x_next size F Hs)) as Dxn.
  pose proof (directed_change size c c' r Hr Hother
                (x_prev size) (x_next size)
                (x_next_prev size) (fun F => sumZ_x_prev size F Hs)) as Dxp.
  pose proof (directed_change size c c' r Hr Hother
                (y_next size) (y_prev size)
                (y_prev_next size) (fun F => sumZ_y_next size F Hs)) as Dyn.
  pose proof (directed_change size c c' r Hr Hother
                (y_prev size) (y_next size)
                (y_next_prev size) (fun F => sumZ_y_prev size F Hs)) as Dyp.
  rewrite !sumZ_bonds. unfold bonds.
  pose proof (pair_energy_same (c r)) as Sr.
  pose proof (pair_energy_same (c' r)) as Sr'.
  pose proof (pair_energy_sym (c r) (c' r)) as Srr'.
  assert (Hnb : forall q, site size q ->
            (c' q = c q \/ q = r)
            /\ pair_energy (c q) (c' r) = pair_energy (c' r) (c q)
            /\ pair_energy (c q) (c r) = pair_energy (c r) (c q)).
  { intros q Hq. split; [|split; apply pair_energy_sym].
    destruct (decide (q = r)) as [E|N]; [right; exact E|left].
    apply Hother; assumption. }
  destruct (Hnb _ Hxn) as ([Exn|Exn] & ? & ?);
  destruct (Hnb _ Hxp) as ([Exp|Exp] & ? & ?);
  destruct (Hnb _ Hyn) as ([Eyn|Eyn] & ? & ?);
  destruct (Hnb _ Hyp) as ([Eyp|Eyp] & ? & ?);
  rewrite ?Exn, ?Exp, ?Eyn, ?Eyp in *; lia.
Qed.

(** ** From pair energies to the energy of the instance *)

Lemma sumR_IZR {A : Type} (f : A -> Z) (l : list A) :
  sumR (map (fun p => IZR (f p)) l) = IZR (sumZ (map f l)).
Proof.
  induction l as [|a l IH]; [reflexivity|].
  simpl map. rewrite sumZ_cons, plus_IZR, <- IH. reflexivity.
Qed.

Lemma neighbor_sites_directions (s : ZnModel.t) (x y : Z) :
  ZnModel.neighbor_sites s x y
  = [ x_next (ZnModel.L s) (x, y); x_prev (ZnModel.L s) (x, y);
      y_next (ZnModel.L s) (x, y); y_prev (ZnModel.L s) (x, y) ].
Proof. reflexivity. Qed.

Lemma local_energy_split (s : ZnModel.t) (x y : Z) :
  local_energy s x y
  = (IZR (bonds (ZnModel.L s) (cells (ZnModel.lattice s)) (x, y))
     - ZnModel.H s
       * IZR (ZnModel.contribution (cells (ZnModel.lattice s) (x, y))))%R.
Proof.
  unfold local_energy, bonds, cells, x_next, x_prev, y_next, y_prev,
    ZnModel.contribution.
  simpl. destruct (cell (ZnModel.lattice s) x y =? 1); lra.
Qed.

Lemma sumR_split {A : Type} (f h : A -> Z) (k : R) (l : list A) :
  sumR (map (fun p => IZR (f p) - k * IZR (h p))%R l)
  = (IZR (sumZ (map f l)) - k * IZR (sumZ (map h l)))%R.
Proof.
  induction l as [|a l IH]; [simpl; lra|].
  simpl map. rewrite !sumZ_cons, !plus_IZR. simpl sumR. rewrite IH. lra.
Qed.

Lemma calculate_total_energy_recomputed (s : ZnModel.t) :
  square (ZnModel.L s) (ZnModel.lattice s) ->
  ZnModel.calculate_total_energy s = Ok (recomputed s).
Proof.
  intros Hsq. rewrite (calculate_total_energy_sites s Hsq).
  unfold recomputed, field_sum. do 2 f_equal.
  rewrite <- sumR_split. f_equal.
  apply map_ext. intros [x y]. apply local_energy_split.
Qed.

Lemma cells_put_elsewhere (size : Z) (a : list (list Z)) (x y v : Z)
      (p : Z * Z) :
  site size (x, y) -> site size p -> p <> (x, y) ->
  cells (put a x y v) p = cells a p.
Proof.
  intros [Hx Hy] [Hpx Hpy] Hne. simpl in *. unfold cells.
  apply cell_put_ne; try lia. destruct p. exact Hne.
Qed.

Lemma field_sum_change (size : Z) (c c' : Z * Z -> Z) (r : Z * Z) :
  site size r ->
  (forall p, site size p -> p <> r -> c' p = c p) ->
  field_sum size c'
  = field_sum size c
    + (ZnModel.contribution (c' r) - ZnModel.contribution (c r)).
Proof.
  intros Hr Hother. unfold field_sum.
  rewrite <- (sumZ_sites_point size
                (fun p => ZnModel.contribution (c' p)
                          - ZnModel.contribution (c p)) r Hr).
  - rewrite <- sumZ_map_add. apply sumZ_map_ext_in. intros p _. lia.
  - intros p Hp Hne. rewrite (Hother p Hp Hne). lia.
Qed.

(** The full recomputation after an accepted move: the pair energies follow
    [delta_energy], the field term follows only half of its share in
    [delta_energy]. *)
Lemma accepted_recomputed (s : ZnModel.t) (p : ZnModel.proposal) :
  wf s -> proposed s p ->
  recomputed (accepted s p)
  = (recomputed s + ZnModel.delta_energy p
     + ZnModel.H s / 2
       * IZR (ZnModel.contribution (ZnModel.new_spin p)
              - ZnModel.contribution (ZnModel.old_spin p)))%R.
Proof.
  intros [HL Hn Hsq Hc] [Hs Hold Hnew Hdiff _ Htent Hdelta].
  assert (Helse : forall q, site (ZnModel.L s) q ->
            q <> (ZnModel.site_x p, ZnModel.site_y p) ->
            cells (put (ZnModel.lattice s) (ZnModel.site_x p)
                       (ZnModel.site_y p) (ZnModel.new_spin p)) q
            = cells (ZnModel.lattice s) q).
  { intros q Hq Hne. apply (cells_put_elsewhere (ZnModel.L s)); assumption. }
  unfold recomputed. simpl.
  rewrite (bonds_change (ZnModel.L s) (cells (ZnModel.lattice s)) _
             (ZnModel.site_x p, ZnModel.site_y p) Hs Helse).
  rewrite (field_sum_change (ZnModel.L s) (cells (ZnModel.lattice s)) _
             (ZnModel.site_x p, ZnModel.site_y p) Hs Helse).
  rewrite Hdelta, Htent, !local_energy_split. simpl.
  assert (Hnow : cells (put (ZnModel.lattice s) (ZnModel.site_x p)
                            (ZnModel.site_y p) (ZnModel.new_spin p))
                       (ZnModel.site_x p, ZnModel.site_y p)
                 = ZnModel.new_spin p)
    by exact (cell_put_eq (ZnModel.L s) _ _ _ _ Hsq Hs).
  assert (Hwas : cells (ZnModel.lattice s)
                       (ZnModel.site_x p, ZnModel.site_y p)
                 = ZnModel.old_spin p)
    by (symmetry; exact Hold).
  rewrite Hnow, Hwas.
  rewrite !plus_IZR, mult_IZR, !minus_IZR. lra.
Qed.

(** Without a field an accepted move keeps [energy] equal to the full
    recomputation. *)
Lemma accepted_energy (s : ZnModel.t) (p : ZnModel.proposal) :
  wf s -> ZnModel.H s = 0%R -> proposed s p -> energy_exact s ->
  energy_exact (accepted s p).
Proof.
  intros Hwf HH Hpr He. unfold energy_exact in *.
  rewrite (calculate_total_energy_recomputed s (wf_square s Hwf)) in He.
  injection He as He.
  rewrite calculate_total_energy_recomputed
    by apply (accepted_wf s p Hwf Hpr).
  rewrite (accepted_recomputed s p Hwf Hpr), HH, He. simpl. f_equal. lra.
Qed.

Lemma reachable_field (s : ZnModel.t) :
  reachable s -> ZnModel.H s = 0%R -> energy_exact s.
Proof.
  induction 1 as [ls ns temp field g g' s HL Hn Hi
                 | s s' g g' Hreach IH Ht
                 | s temp _ IH]; intros HH.
  - exact (c_energy _ _ _ _ _
             (init_constructed ls ns temp field g g' s HL Hi)).
  - pose proof (reachable_wf s Hreach) as Hwf.
    destruct (trial_cases s s' g g' Hwf Ht) as [->|(p & Hpr & ->)].
    + exact (IH HH).
    + apply accepted_energy; try assumption. exact (IH HH).
  - exact (IH HH).
Qed.



(** X4. With a field the two energies drift apart by a known amount: a
    trial that returns changes the difference between [energy] and the full
    recomputation by -H/2 times the change of the magnetization.  The full
    recomputation halves the field term with the pair terms, the running
    update does not. *)
Theorem energy_drift_law (s s' : ZnModel.t) (g g' : rng) :
  wf s -> ZnModel.trial s g = Ok (s', g') ->
  ZnModel.calculate_total_energy s = Ok (recomputed s)
  /\ ZnModel.calculate_total_energy s' = Ok (recomputed s')
  /\ (ZnModel.energy s' - recomputed s'
      = (ZnModel.energy s - recomputed s)
        - ZnModel.H s / 2
          * IZR (ZnModel.magnetization s' - ZnModel.magnetization s))%R.
Proof.
  intros Hwf Ht.
  split; [apply calculate_total_energy_recomputed, Hwf|].
  destruct (trial_cases s s' g g' Hwf Ht) as [->|(p & Hpr & ->)].
  - split; [apply calculate_total_energy_recomputed, Hwf|].
    rewrite Z.sub_diag. lra.
  - split.
    + apply calculate_total_energy_recomputed, (accepted_wf s p Hwf Hpr).
    + rewrite (accepted_recomputed s p Hwf Hpr). simpl.
      replace (ZnModel.magnetization s
               + (ZnModel.contribution (ZnModel.new_spin p)
                  - ZnModel.contribution (ZnModel.old_spin p))
               - ZnModel.magnetization s)
        with (ZnModel.contribution (ZnModel.new_spin p)
              - ZnModel.contribution (ZnModel.old_spin p)) by lia.
      lra.
Qed.

Lemma energy_drift_law_witness :
  exists s' g',
    ZnModel.trial biased2 sweep2 = Ok (s', g')
    /\ (ZnModel.energy s' - recomputed s'
        = (ZnModel.energy biased2 - recomputed biased2)
          - ZnModel.H biased2 / 2
            * IZR (ZnModel.magnetization s' - ZnModel.magnetization biased2))%R.
Proof.
  assert (HT : ZnModel.T biased2 <> 0%R) by (simpl; lra).
  destruct (trial_total biased2 sweep2 biased2_wf HT)
    as (p & g1 & b & g2 & _ & _ & _ & Ht).
  eexists _, g2. split; [exact Ht|].
  exact (proj2 (proj2 (energy_drift_law biased2 _ sweep2 g2 biased2_wf Ht))).
Defined.

(** * Construction and the growth of the histories *)

(** X2. For a valid configuration within numpy's bounds (an addressable
    size L >= 1, that is 8 L^2 < 2^63, and 2 <= n <= 2^63) the constructor
    returns an instance with the arguments it was given, a lattice of shape
    (L, L) with cells in [0, n), and with [energy] and [magnetization] equal
    to their full recomputations. *)
Theorem construction_consistent (lattice_size n_states : Z)
        (temperature external_field : R) (g : rng) :
  1 <= lattice_size -> addressable lattice_size ->
  2 <= n_states -> n_states - 1 <= int64_max ->
  exists s g',
    ZnModel.init lattice_size n_states temperature external_field g
    = Ok (s, g')
    /\ wf s
    /\ (ZnModel.L s = lattice_size /\ ZnModel.n s = n_states
        /\ ZnModel.T s = temperature /\ ZnModel.H s = external_field)
    /\ ZnModel.calculate_total_energy s = Ok (ZnModel.energy s)
    /\ ZnModel.calculate_magnetization s = ZnModel.magnetization s.
Proof.
  intros HL Hsize Hn Hstates. assert (Hn1 : 1 <= n_states) by lia.
  destruct (init_total lattice_size n_states temperature external_field g
              HL Hsize Hn1 Hstates) as (s & g' & Hi & Hc).
  exists s, g'. split; [exact Hi|].
  split; [exact (constructed_wf _ _ _ _ s HL Hsize Hn Hstates Hc)|].
  destruct Hc as [EL En ET EH _ _ He Hm]. auto.
Qed.

Lemma construction_consistent_witness :
  exists s g',
    ZnModel.init 3 2 1 0 exhausted = Ok (s, g')
    /\ ZnModel.calculate_total_energy s = Ok (ZnModel.energy s)
    /\ ZnModel.calculate_magnetization s = ZnModel.magnetization s.
Proof.
  destruct (construction_consistent 3 2 1 0 exhausted)
    as (s & g' & Hi & _ & _ & He & Hm); [vm_compute; congruence..|].
  exists s, g'. split; [exact Hi|]. split; [exact He|exact Hm].
Defined.

(** X3. A call of [update] that returns has appended exactly one element
    to each of the two histories, the energy and the magnetization of the
    instance after the pass, and has kept what they held, in order; the two
    derived series have kept what they held and grown by at most one
    element each. *)
Theorem histories_grow_by_one (lattice_size : Z) (temperature_range : list R)
        (frame : Z) (w w' : Script.globals) :
  Script.update lattice_size temperature_range frame w = Ok w' ->
  Script.energy_data w'
  = Script.energy_data w ++ [ZnModel.energy (Script.zn_model w')]
  /\ Script.magnetization_data w'
     = Script.magnetization_data w
       ++ [ZnModel.magnetization (Script.zn_model w')]
  /\ (exists more,
        Script.specific_heat_data w' = Script.specific_heat_data w ++ more
        /\ (length more <= 1)%nat)
  /\ (exists more,
        Script.susceptibility_data w' = Script.susceptibility_data w ++ more
        /\ (length more <= 1)%nat).
Proof.
  unfold Script.update. intros Hu.
  destruct (Script.temperature_at temperature_range frame)
    as [temperature|e]; [simpl in Hu|discriminate].
  destruct (ZnModel.metropolis_step _ _) as [[model g']|e];
    [|discriminate].
  destruct (1 <? _); injection Hu as <-; simpl.
  - repeat split; eexists; (split; [reflexivity|simpl; lia]).
  - repeat split; exists []; rewrite app_nil_r;
      (split; [reflexivity|simpl; lia]).
Qed.

Lemma histories_grow_by_one_witness :
  exists w',
    Script.update 3 [5%R] 0 (Script.start aligned3 exhausted) = Ok w'
    /\ Script.energy_data w' = [ZnModel.energy (Script.zn_model w')]
    /\ Script.magnetization_data w'
       = [ZnModel.magnetization (Script.zn_model w')].
Proof.
  destruct (update_recorded 3 [5%R] 0 0 (Script.start aligned3 exhausted))
    as (w' & Hu & _).
  - exact aligned3_wf.
  - constructor; simpl; try reflexivity; lia.
  - repeat constructor. lra.
  - simpl. lia.
  - exists w'. split; [exact Hu|].
    destruct (histories_grow_by_one 3 [5%R] 0 _ w' Hu) as (He & Hm & _).
    split; [exact He|exact Hm].
Defined.

(** * Indices outside the grid *)

Lemma np_index_negative (len : nat) (i : Z) :
  - Z.of_nat len <= i < 0 -> np_index len i = Ok (Z.to_nat (i + Z.of_nat len)).
Proof.
  intros Hi. unfold np_index.
  destruct (Z.leb_spec 0 i); [lia|]. simpl.
  destruct (Z.leb_spec (- Z.of_nat len) i); [|lia].
  destruct (Z.ltb_spec i 0); [reflexivity|lia].
Qed.

Lemma np_index_outside (len : nat) (i : Z) :
  i < - Z.of_nat len \/ Z.of_nat len <= i -> np_index len i = Raise IndexError.
Proof.
  intros Hi. unfold np_index.
  destruct (Z.leb_spec 0 i), (Z.ltb_spec i (Z.of_nat len)),
    (Z.leb_spec (- Z.of_nat len) i), (Z.ltb_spec i 0);
    simpl; try reflexivity; lia.
Qed.

(** numpy's index rule in one equation: an index of [-len, len) reads the
    position [i mod len]. *)
Lemma np_index_wrap (len : nat) (i : Z) :
  - Z.of_nat len <= i < Z.of_nat len ->
  np_index len i = Ok (Z.to_nat (i mod Z.of_nat len)).
Proof.
  intros Hi. destruct (Z_lt_le_dec i 0) as [Hneg|Hpos].
  - rewrite np_index_negative by lia. do 2 f_equal.
    apply Z.mod_unique_pos with (q := -1); lia.
  - rewrite np_index_in_range by lia. rewrite Z.mod_small by lia.
    reflexivity.
Qed.

Lemma getitem_wrap (size : Z) (a : list (list Z)) (x y : Z) :
  square size a -> - size <= x < size -> - size <= y < size ->
  getitem a x y = Ok (cell a (x mod size) (y mod size)).
Proof.
  intros Hsq Hx Hy.
  assert (Hpos : 0 < size) by lia.
  pose proof (Z.mod_pos_bound x size Hpos) as Hxm.
  pose proof (Z.mod_pos_bound y size Hpos) as Hym.
  destruct (square_cell size a (x mod size) (y mod size) Hsq)
    as (row & Hrow & Hlen & Hv); [split; simpl; lia|].
  destruct Hsq as [Hla _]. unfold getitem.
  rewrite np_index_wrap by lia. simpl.
  replace (Z.of_nat (length a)) with size by lia. rewrite Hrow.
  rewrite np_index_wrap by lia. simpl.
  replace (Z.of_nat (length row)) with size by lia. rewrite Hv.
  reflexivity.
Qed.

Lemma getitem_outside (size : Z) (a : list (list Z)) (x y : Z) :
  square size a -> 0 <= size ->
  ~ (- size <= x < size /\ - size <= y < size) ->
  getitem a x y = Raise IndexError.
Proof.
  intros Hsq Hsize Hout. unfold getitem.
  destruct (Z_lt_le_dec x (- size)) as [Hx|Hx];
    [rewrite np_index_outside by (destruct Hsq; lia); reflexivity|].
  destruct (Z_lt_le_dec x size) as [Hx'|Hx'];
    [|rewrite np_index_outside by (destruct Hsq; lia); reflexivity].
  assert (Hpos : 0 < size) by lia.
  pose proof (Z.mod_pos_bound x size Hpos) as Hxm.
  destruct (square_row size a (x mod size) Hsq Hxm) as (row & Hrow & Hlen).
  rewrite np_index_wrap by (destruct Hsq; lia). simpl.
  replace (Z.of_nat (length a)) with size by (destruct Hsq; lia).
  rewrite Hrow. rewrite np_index_outside by lia. reflexivity.
Qed.

(** X5. On a lattice of shape (L, L), [calculate_energy(x, y)] accepts
    exactly the indices numpy accepts: for x and y in [-L, L) it returns the
    local energy of the site (x mod L, y mod L), so a negative index names
    the site L cells further on, and for any other index it raises
    IndexError. *)
Theorem calculate_energy_indices (s : ZnModel.t) (x y : Z) :
  1 <= ZnModel.L s -> square (ZnModel.L s) (ZnModel.lattice s) ->
  ((- ZnModel.L s <= x < ZnModel.L s /\ - ZnModel.L s <= y < ZnModel.L s) ->
   ZnModel.calculate_energy s x y
   = Ok (local_energy s (x mod ZnModel.L s) (y mod ZnModel.L s)))
  /\ (~ (- ZnModel.L s <= x < ZnModel.L s
         /\ - ZnModel.L s <= y < ZnModel.L s) ->
      ZnModel.calculate_energy s x y = Raise IndexError).
Proof.
  intros HL Hsq. split.
  - intros [Hx Hy].
    assert (Hpos : 0 < ZnModel.L s) by lia.
    pose proof (Z.mod_pos_bound x _ Hpos) as Hxm.
    pose proof (Z.mod_pos_bound y _ Hpos) as Hym.
    pose proof (Z.mod_pos_bound (x + 1) _ Hpos).
    pose proof (Z.mod_pos_bound (x - 1) _ Hpos).
    pose proof (Z.mod_pos_bound (y + 1) _ Hpos).
    pose proof (Z.mod_pos_bound (y - 1) _ Hpos).
    unfold ZnModel.calculate_energy, ZnModel.neighbor_sites. simpl.
    rewrite (getitem_wrap (ZnModel.L s) _ x y) by (try assumption; lia).
    simpl.
    rewrite (getitem_wrap (ZnModel.L s) _ ((x + 1) mod ZnModel.L s) y)
      by (try assumption; lia). simpl.
    rewrite (getitem_wrap (ZnModel.L s) _ ((x - 1) mod ZnModel.L s) y)
      by (try assumption; lia). simpl.
    rewrite (getitem_wrap (ZnModel.L s) _ x ((y + 1) mod ZnModel.L s))
      by (try assumption; lia). simpl.
    rewrite (getitem_wrap (ZnModel.L s) _ x ((y - 1) mod ZnModel.L s))
      by (try assumption; lia). simpl.
    f_equal. unfold local_energy, pair_energy, ZnModel.contribution. simpl.
    rewrite !Z.mod_mod by lia.
    rewrite (Zplus_mod_idemp_l x 1), (Zminus_mod_idemp_l x 1),
      (Zplus_mod_idemp_l y 1), (Zminus_mod_idemp_l y 1).
    repeat match goal with
           | |- context [?a =? ?b] => destruct (a =? b)
           end; simpl; rewrite ?opp_IZR, ?plus_IZR; lra.
  - intros Hout. unfold ZnModel.calculate_energy.
    rewrite (getitem_outside (ZnModel.L s)) by (try assumption; lia).
    reflexivity.
Qed.

Lemma calculate_energy_indices_witness :
  ZnModel.calculate_energy aligned3 (-1) 2 = Ok (local_energy aligned3 2 2)
  /\ ZnModel.calculate_energy aligned3 3 0 = Raise IndexError.
Proof.
  assert (HL : 1 <= ZnModel.L aligned3) by (simpl; lia).
  destruct (calculate_energy_indices aligned3 (-1) 2 HL
              (wf_square _ aligned3_wf)) as [Hin _].
  destruct (calculate_energy_indices aligned3 3 0 HL
              (wf_square _ aligned3_wf)) as [_ Hout].
  split; [apply Hin; simpl; lia|apply Hout; simpl; lia].
Defined.

(** * The acceptance test as a function of the energy change and of the
      temperature *)

Lemma exp_le (a b : R) : (a <= b)%R -> (exp a <= exp b)%R.
Proof.
  intros [Hlt | ->]; [left; apply exp_increasing, Hlt|right; reflexivity].
Qed.

(** An uphill move is accepted exactly when the draw is below the Boltzmann
    factor. *)
Lemma reject_move_uphill_accepts (delta temperature : R) (g g1 : rng) :
  (0 < delta)%R -> temperature <> 0%R ->
  (ZnModel.reject_move delta temperature g = Ok (false, g1)
   <-> exists u, rand g = Ok (u, g1)
                 /\ (u < exp (- delta / temperature))%R).
Proof.
  intros Hd Ht.
  destruct (reject_move_uphill delta temperature g Hd Ht)
    as (u & g' & Eu & _ & _ & Hr).
  rewrite Hr. split.
  - destruct (Rge_dec u (exp (- delta / temperature))) as [Hge|Hlt];
      [discriminate|].
    intros [= <-]. exists u. split; [exact Eu|lra].
  - intros (u' & Eu' & Hlt). rewrite Eu in Eu'. injection Eu' as <- <-.
    destruct (Rge_dec u (exp (- delta / temperature))); [lra|reflexivity].
Qed.

Lemma exhausted_accepts (delta temperature : R) :
  temperature <> 0%R ->
  ZnModel.reject_move delta temperature exhausted = Ok (false, exhausted).
Proof.
  intros Ht. destruct (Rle_or_lt delta 0) as [Hd|Hd].
  - apply reject_move_downhill, Hd.
  - apply reject_move_uphill_accepts; [exact Hd|exact Ht|].
    exists 0%R. split; [reflexivity|apply exp_pos].
Qed.

(** X6. The acceptance test of line 48 is monotone: with the same state of
    the generator and a positive temperature, a move that is accepted stays
    accepted when its energy change is smaller, and stays accepted when the
    temperature is higher. *)
Theorem acceptance_is_monotone (delta delta' temperature temperature' : R)
        (g g1 : rng) :
  (0 < temperature <= temperature')%R -> (delta' <= delta)%R ->
  ZnModel.reject_move delta temperature g = Ok (false, g1) ->
  (exists g2, ZnModel.reject_move delta' temperature g = Ok (false, g2))
  /\ (exists g2, ZnModel.reject_move delta temperature' g = Ok (false, g2)).
Proof.
  intros [HT HT'] Hdd Hacc. split.
  - destruct (Rle_or_lt delta' 0) as [Hd'|Hd'].
    + exists g. apply reject_move_downhill, Hd'.
    + assert (Hd : (0 < delta)%R) by lra.
      apply reject_move_uphill_accepts in Hacc as (u & Eu & Hu);
        [|exact Hd|lra].
      exists g1. apply reject_move_uphill_accepts; [exact Hd'|lra|].
      exists u. split; [exact Eu|].
      apply Rlt_le_trans with (1 := Hu). apply exp_le.
      unfold Rdiv. rewrite <- !Ropp_mult_distr_l. apply Ropp_le_contravar.
      apply Rmult_le_compat_r; [left; apply Rinv_0_lt_compat, HT|exact Hdd].
  - destruct (Rle_or_lt delta 0) as [Hd|Hd].
    + exists g. apply reject_move_downhill, Hd.
    + apply reject_move_uphill_accepts in Hacc as (u & Eu & Hu);
        [|exact Hd|lra].
      exists g1. apply reject_move_uphill_accepts; [exact Hd|lra|].
      exists u. split; [exact Eu|].
      apply Rlt_le_trans with (1 := Hu). apply exp_le.
      unfold Rdiv. rewrite <- !Ropp_mult_distr_l. apply Ropp_le_contravar.
      apply Rmult_le_compat_l; [lra|].
      apply Rinv_le_contravar; assumption.
Qed.

Lemma acceptance_is_monotone_witness :
  (exists g2, ZnModel.reject_move 2 1 exhausted = Ok (false, g2))
  /\ (exists g2, ZnModel.reject_move 4 5 exhausted = Ok (false, g2)).
Proof.
  apply (acceptance_is_monotone 4 2 1 5 exhausted exhausted).
  - lra.
  - lra.
  - apply exhausted_accepts. lra.
Defined.

(** * How far the energy can go *)

Lemma sites_length (size : Z) :
  0 <= size -> Z.of_nat (length (sites size)) = size ^ 2.
Proof.
  intros Hs. unfold sites.
  rewrite flat_map_constant_length with (c := Z.to_nat size).
  - rewrite range_length. nia.
  - intros x _. rewrite length_map. apply range_length.
Qed.

Lemma sumZ_range {A : Type} (f : A -> Z) (lo hi : Z) (l : list A) :
  (forall p, In p l -> lo <= f p <= hi) ->
  lo * Z.of_nat (length l) <= sumZ (map f l) <= hi * Z.of_nat (length l).
Proof.
  induction l as [|a l IH]; intros Hf; [simpl; lia|].
  simpl map. rewrite sumZ_cons. simpl length.
  pose proof (Hf a (or_introl eq_refl)).
  assert (lo * Z.of_nat (length l) <= sumZ (map f l)
          <= hi * Z.of_nat (length l))
    by (apply IH; intros p Hp; apply Hf; right; exact Hp).
  lia.
Qed.

Lemma pair_energy_range (a b : Z) : -1 <= pair_energy a b <= 0.
Proof. unfold pair_energy. destruct (a =? b); lia. Qed.

Lemma bonds_range (size : Z) (c : Z * Z -> Z) (p : Z * Z) :
  -4 <= bonds size c p <= 0.
Proof.
  unfold bonds.
  pose proof (pair_energy_range (c p) (c (x_next size p))).
  pose proof (pair_energy_range (c p) (c (x_prev size p))).
  pose proof (pair_energy_range (c p) (c (y_next size p))).
  pose proof (pair_energy_range (c p) (c (y_prev size p))).
  lia.
Qed.

Lemma contribution_range (v : Z) : -1 <= ZnModel.contribution v <= 1.
Proof. unfold ZnModel.contribution. destruct (v =? 1); lia. Qed.

Lemma recomputed_range (s : ZnModel.t) :
  0 <= ZnModel.L s ->
  (- 2 * IZR (ZnModel.L s ^ 2) - Rabs (ZnModel.H s) * IZR (ZnModel.L s ^ 2) / 2
   <= recomputed s
   <= Rabs (ZnModel.H s) * IZR (ZnModel.L s ^ 2) / 2)%R.
Proof.
  intros HL. unfold recomputed, field_sum.
  set (a := ZnModel.lattice s). set (size := ZnModel.L s) in *.
  pose proof (sumZ_range (bonds size (cells a)) (-4) 0 (sites size)
                (fun p _ => bonds_range size (cells a) p)) as Hb.
  pose proof (sumZ_range (fun p => ZnModel.contribution (cells a p)) (-1) 1
                (sites size)
                (fun p _ => contribution_range (cells a p))) as Hf.
  rewrite (sites_length size HL) in Hb, Hf.
  set (B := sumZ (map (bonds size (cells a)) (sites size))) in *.
  set (F := sumZ (map (fun p => ZnModel.contribution (cells a p))
                      (sites size))) in *.
  assert (HB : (-4 * IZR (size ^ 2) <= IZR B <= 0)%R).
  { split.
    - rewrite <- (mult_IZR (-4)). apply IZR_le. lia.
    - apply IZR_le. lia. }
  assert (HF : (- IZR (size ^ 2) <= IZR F <= IZR (size ^ 2))%R).
  { split.
    - rewrite <- opp_IZR. apply IZR_le. lia.
    - apply IZR_le. lia. }
  assert (HHF : (Rabs (ZnModel.H s * IZR F)
                 <= Rabs (ZnModel.H s) * IZR (size ^ 2))%R).
  { rewrite Rabs_mult. apply Rmult_le_compat_l; [apply Rabs_pos|].
    apply Rabs_le. lra. }
  pose proof (Rle_abs (ZnModel.H s * IZR F)) as Hup.
  pose proof (Rle_abs (- (ZnModel.H s * IZR F))) as Hdown.
  rewrite Rabs_Ropp in Hdown. lra.
Qed.

(** X7. The value [calculate_total_energy()] returns on a lattice of shape
    (L, L) lies between -2 L^2 - |H| L^2 / 2 and |H| L^2 / 2; and without
    a field the running [energy] of every instance built from a valid
    configuration and changed by trials lies in [-2 L^2, 0]. *)
Theorem energy_range (s : ZnModel.t) :
  reachable s ->
  exists e,
    ZnModel.calculate_total_energy s = Ok e
    /\ (- 2 * IZR (ZnModel.L s ^ 2)
        - Rabs (ZnModel.H s) * IZR (ZnModel.L s ^ 2) / 2
        <= e <= Rabs (ZnModel.H s) * IZR (ZnModel.L s ^ 2) / 2)%R
    /\ (ZnModel.H s = 0%R ->
        ZnModel.energy s = e
        /\ (- 2 * IZR (ZnModel.L s ^ 2) <= ZnModel.energy s <= 0)%R).
Proof.
  intros Hreach. pose proof (reachable_wf s Hreach) as Hwf.
  assert (HL : 0 <= ZnModel.L s) by (destruct Hwf; lia).
  exists (recomputed s).
  split; [apply calculate_total_energy_recomputed, Hwf|].
  pose proof (recomputed_range s HL) as Hr. split; [exact Hr|].
  intros HH. pose proof (reachable_field s Hreach HH) as He.
  unfold energy_exact in He.
  rewrite (calculate_total_energy_recomputed s (wf_square s Hwf)) in He.
  injection He as He. split; [symmetry; exact He|].
  rewrite <- He. rewrite HH, Rabs_R0 in Hr. lra.
Qed.

Lemma energy_range_witness :
  (- 2 * IZR (ZnModel.L aligned3 ^ 2) <= ZnModel.energy aligned3 <= 0)%R.
Proof.
  destruct (energy_range aligned3 aligned3_reachable) as (e & _ & _ & Hz).
  apply Hz. reflexivity.
Defined.

(** X8. A trial that returns on a well-formed instance was either
    rejected, and then it returns the instance it was given ([energy],
    [magnetization] and the lattice as before); or accepted, and then the
    lattice is the tentative one, [magnetization] has changed by the
    difference of the two contributions, and [energy] has changed by
    k - H * (change of magnetization), where k is the change of the four
    pair energies of the visited cell (their sum after the move minus their
    sum before), an integer between -4 and 4. *)
Theorem energy_step (s s' : ZnModel.t) (g g' : rng) :
  wf s -> ZnModel.trial s g = Ok (s', g') ->
  exists (p : ZnModel.proposal) (g1 : rng) (rejected : bool) (k : Z),
    ZnModel.propose s g = Ok (p, g1)
    /\ ZnModel.reject_move (ZnModel.delta_energy p) (ZnModel.T s) g1
       = Ok (rejected, g')
    /\ k = bonds (ZnModel.L s) (cells (ZnModel.lattice (ZnModel.tentative p)))
                 (ZnModel.site_x p, ZnModel.site_y p)
           - bonds (ZnModel.L s) (cells (ZnModel.lattice s))
                   (ZnModel.site_x p, ZnModel.site_y p)
    /\ -4 <= k <= 4
    /\ (ZnModel.delta_energy p
        = IZR k
          - ZnModel.H s
            * IZR (ZnModel.contribution (ZnModel.new_spin p)
                   - ZnModel.contribution (ZnModel.old_spin p)))%R
    /\ (rejected = true -> s' = s)
    /\ (rejected = false ->
        ZnModel.lattice s' = ZnModel.lattice (ZnModel.tentative p)
        /\ ZnModel.magnetization s' - ZnModel.magnetization s
           = ZnModel.contribution (ZnModel.new_spin p)
             - ZnModel.contribution (ZnModel.old_spin p)
        /\ (ZnModel.energy s' - ZnModel.energy s
            = IZR k
              - ZnModel.H s
                * IZR (ZnModel.magnetization s' - ZnModel.magnetization s))%R).
Proof.
  intros Hwf Ht.
  destruct (propose_total s g Hwf) as (p & g1 & Hp & Hpr & _).
  destruct (ZnModel.reject_move (ZnModel.delta_energy p) (ZnModel.T s) g1)
    as [[b g2]|e] eqn:Hr.
  - rewrite (trial_settled s g g1 g2 p b Hwf Hp Hr) in Ht.
    injection Ht as <- <-.
    destruct Hpr as [Hs Hold Hnew _ _ Htent Hdelta].
    pose proof (wf_square s Hwf) as Hsq.
    set (a' := put (ZnModel.lattice s) (ZnModel.site_x p) (ZnModel.site_y p)
                   (ZnModel.new_spin p)) in *.
    assert (Hlat : ZnModel.lattice (ZnModel.tentative p) = a')
      by (rewrite Htent; reflexivity).
    pose proof (bonds_range (ZnModel.L s) (cells a')
                  (ZnModel.site_x p, ZnModel.site_y p)) as Hb'.
    pose proof (bonds_range (ZnModel.L s) (cells (ZnModel.lattice s))
                  (ZnModel.site_x p, ZnModel.site_y p)) as Hb.
    assert (Hnow : cells a' (ZnModel.site_x p, ZnModel.site_y p)
                   = ZnModel.new_spin p)
      by exact (cell_put_eq (ZnModel.L s) _ _ _ _ Hsq Hs).
    assert (Hwas : cells (ZnModel.lattice s)
                         (ZnModel.site_x p, ZnModel.site_y p)
                   = ZnModel.old_spin p)
      by (symmetry; exact Hold).
    assert (Hd : (ZnModel.delta_energy p
                  = IZR (bonds (ZnModel.L s) (cells a')
                               (ZnModel.site_x p, ZnModel.site_y p)
                         - bonds (ZnModel.L s) (cells (ZnModel.lattice s))
                                 (ZnModel.site_x p, ZnModel.site_y p))
                    - ZnModel.H s
                      * IZR (ZnModel.contribution (ZnModel.new_spin p)
                             - ZnModel.contribution (ZnModel.old_spin p)))%R).
    { rewrite Hdelta, Htent, !local_energy_split. simpl. fold a'.
      rewrite Hnow, Hwas, !minus_IZR. lra. }
    exists p, g1, b, (bonds (ZnModel.L s) (cells a')
                            (ZnModel.site_x p, ZnModel.site_y p)
                      - bonds (ZnModel.L s) (cells (ZnModel.lattice s))
                              (ZnModel.site_x p, ZnModel.site_y p)).
    split; [exact Hp|]. split; [exact Hr|].
    split; [rewrite Hlat; reflexivity|]. split; [lia|].
    split; [exact Hd|]. split.
    + intros ->. reflexivity.
    + intros ->. simpl. split; [symmetry; exact Hlat|]. split; [lia|].
      replace (ZnModel.magnetization s
               + (ZnModel.contribution (ZnModel.new_spin p)
                  - ZnModel.contribution (ZnModel.old_spin p))
               - ZnModel.magnetization s)
        with (ZnModel.contribution (ZnModel.new_spin p)
              - ZnModel.contribution (ZnModel.old_spin p)) by lia.
      rewrite <- Hd. lra.
  - unfold ZnModel.trial, bind in Ht. rewrite Hp in Ht.
    unfold ZnModel.settle, bind in Ht.
    rewrite (pr_tentative _ _ Hpr) in Ht. simpl in Ht. rewrite Hr in Ht.
    discriminate.
Qed.

(** The first trial of the pass over [biased2]: the cell (0, 0) goes from
    state 0 to state 1 among neighbours in state 0, so k = 4, the
    magnetization rises by 2 and, the field being 3, [energy] changes by
    4 - 3 * 2. *)
Lemma energy_step_witness :
  exists s' g',
    ZnModel.trial biased2 sweep2 = Ok (s', g')
    /\ ZnModel.magnetization s' - ZnModel.magnetization biased2 = 2
    /\ (ZnModel.energy s' - ZnModel.energy biased2 = 4 - 3 * 2)%R.
Proof.
  assert (HT : ZnModel.T biased2 <> 0%R) by (simpl; lra).
  destruct (trial_total biased2 sweep2 biased2_wf HT)
    as (p0 & g0 & b & g2 & _ & _ & _ & Ht).
  destruct (energy_step biased2 _ sweep2 g2 biased2_wf Ht)
    as (p & g1 & rejected & k & Hp & Hr & Hk & _ & _ & _ & Hacc).
  eexists _, g2. split; [exact Ht|].
  eassert (Hpc : ZnModel.propose biased2 sweep2 = Ok (_, _))
    by (vm_compute; reflexivity).
  rewrite Hpc in Hp. injection Hp as <- <-.
  rewrite reject_move_downhill in Hr by (cbn [ZnModel.delta_energy]; lra).
  injection Hr as <- _.
  destruct (Hacc eq_refl) as (_ & Hm & He).
  vm_compute in Hk. subst k.
  assert (Hm2 : ZnModel.magnetization (if b then biased2
                                       else accepted biased2 p0)
                - ZnModel.magnetization biased2 = 2)
    by (rewrite Hm; reflexivity).
  split; [exact Hm2|]. rewrite He, Hm2. simpl. lra.
Defined.

(** * The run of the script *)

(** What a call of [update] returns on well-formed globals, field by
    field. *)
Lemma update_result (lattice_size : Z) (temperature_range : list R)
      (frame : Z) (w : Script.globals) :
  wf (Script.zn_model w) ->
  Forall (fun temperature => temperature <> 0%R) temperature_range ->
  0 <= frame < Z.of_nat (length temperature_range) ->
  exists temperature model g',
    Script.temperature_at temperature_range frame = Ok temperature
    /\ wf model
    /\ ZnModel.L model = ZnModel.L (Script.zn_model w)
    /\ ZnModel.H model = ZnModel.H (Script.zn_model w)
    /\ ZnModel.T model = temperature
    /\ (reachable (Script.zn_model w) -> reachable model)
    /\ Script.update lattice_size temperature_range frame w
       = Ok (Script.mkGlobals model g'
               (Script.energy_data w ++ [ZnModel.energy model])
               (Script.magnetization_data w ++ [ZnModel.magnetization model])
               (if (1 <=? length (Script.energy_data w))%nat
                then Script.specific_heat_data w
                     ++ [(Script.np_var
                            (Script.energy_data w ++ [ZnModel.energy model])
                          / (IZR (lattice_size ^ 2) * temperature ^ 2))%R]
                else Script.specific_heat_data w)
               (if (1 <=? length (Script.energy_data w))%nat
                then Script.susceptibility_data w
                     ++ [(Script.np_var
                            (map IZR (Script.magnetization_data w
                                      ++ [ZnModel.magnetization model]))
                          / (IZR (lattice_size ^ 2) * temperature))%R]
                else Script.susceptibility_data w)).
Proof.
  intros Hwf Hnz Hf.
  destruct (temperature_at_frame temperature_range frame Hf)
    as (temp & Hat & Hlook).
  assert (Htemp : temp <> 0%R).
  { rewrite Forall_lookup in Hnz. exact (Hnz _ _ Hlook). }
  destruct (metropolis_step_total
              (ZnModel.with_T (Script.zn_model w) temp) (Script.generator w))
    as (model & g' & Hstep & Hwf' & HL' & HT' & HH' & Hr');
    [apply with_T_wf, Hwf|exact Htemp|].
  simpl in HL', HT', HH'.
  exists temp, model, g'. split; [exact Hat|]. split; [exact Hwf'|].
  split; [exact HL'|]. split; [exact HH'|]. split; [exact HT'|].
  split; [intros Hr; apply Hr', reach_T, Hr|].
  unfold Script.update. rewrite Hat. simpl. rewrite Hstep.
  rewrite length_app, HT'. simpl.
  destruct (length (Script.energy_data w)) as [|k]; [reflexivity|].
  destruct (Z.ltb_spec 1 (Z.of_nat (S k + 1))); [reflexivity|lia].
Qed.

Lemma animate_played (lattice_size : Z) (temperature_range : list R)
      (fs : list Z) (model : ZnModel.t) (g : rng) :
  wf model ->
  Forall (fun temperature => temperature <> 0%R) temperature_range ->
  Forall (fun frame => 0 <= frame < Z.of_nat (length temperature_range)) fs ->
  exists w,
    Script.animate lattice_size temperature_range fs (Script.start model g)
    = Ok w
    /\ played lattice_size temperature_range model fs w.
Proof.
  intros Hwf Hnz. induction fs as [|frame fs IH] using rev_ind; intros Hfs.
  - exists (Script.start model g). split; [reflexivity|].
    constructor; simpl; try reflexivity; try assumption; try tauto.
    intros i frame temperature Hi. discriminate.
  - apply Forall_app in Hfs as [Hfs Hf]. inversion_clear Hf as [|? ? Hf' _].
    destruct (IH Hfs) as (w & Hw & Hpl).
    destruct Hpl as [Hwfw HLw HHw Hrw HE HM Hsh Hsu Hcur Hser].
    destruct (update_result lattice_size temperature_range frame w
                Hwfw Hnz Hf')
      as (temp & m' & g' & Hat & Hwf' & HL' & HH' & HT' & Hr' & Hu).
    set (b := (1 <=? length (Script.energy_data w))%nat) in Hu.
    assert (Hb : if b then (1 <= length (Script.energy_data w))%nat
                 else length (Script.energy_data w) = 0%nat).
    { subst b. destruct (Nat.leb_spec 1 (length (Script.energy_data w)));
        [assumption|lia]. }
    clearbody b.
    eexists. split.
    { unfold Script.animate in *. rewrite foldR_app, Hw. simpl.
      rewrite Hu. reflexivity. }
    constructor; simpl; rewrite ?length_app; simpl.
    + exact Hwf'.
    + congruence.
    + congruence.
    + auto.
    + lia.
    + lia.
    + destruct b; rewrite ?length_app; simpl; lia.
    + destruct b; rewrite ?length_app; simpl; lia.
    + intros _. apply last_snoc.
    + intros i f0 t0 Hi Ht0.
      destruct (decide (S i < length fs)%nat) as [Hlt|Hge].
      * rewrite lookup_app_l in Hi by exact Hlt.
        destruct (Hser i f0 t0 Hi Ht0) as [Hc Hx].
        rewrite !take_app_le by lia.
        destruct b; [|lia].
        rewrite !lookup_app_l by lia. split; assumption.
      * assert (Hlen : S i = length fs).
        { apply lookup_lt_Some in Hi. rewrite length_app in Hi.
          simpl in Hi. lia. }
        rewrite Hlen, list_lookup_middle in Hi by reflexivity.
        injection Hi as <-. rewrite Hat in Ht0. injection Ht0 as <-.
        destruct b; [|lia].
        rewrite !take_ge by (rewrite length_app; simpl; lia).
        assert (Hi1 : i = length (Script.specific_heat_data w)) by lia.
        assert (Hi2 : i = length (Script.susceptibility_data w)) by lia.
        split.
        -- rewrite Hi1 at 1. rewrite list_lookup_middle by reflexivity.
           reflexivity.
        -- rewrite Hi2 at 1. rewrite list_lookup_middle by reflexivity.
           reflexivity.
Qed.

Lemma lookup_map {A B : Type} (f : A -> B) (l : list A) (i : nat) :
  map f l !! i = f <$> l !! i.
Proof.
  revert i. induction l as [|a l IH]; intros [|i]; try reflexivity.
  simpl. apply IH.
Qed.

Lemma range_lookup (k : Z) (i : nat) :
  (i < Z.to_nat k)%nat -> range k !! i = Some (Z.of_nat i).
Proof.
  intros Hi. unfold range. rewrite lookup_map, lookup_seq_lt by exact Hi.
  reflexivity.
Qed.

Lemma range_frames (temperature_range : list R) :
  Forall (fun frame => 0 <= frame < Z.of_nat (length temperature_range))
         (range (Z.of_nat (length temperature_range))).
Proof. apply List.Forall_forall. intros x Hx. apply range_spec, Hx. Qed.

Lemma temperature_at_lookup (temperature_range : list R) (i : nat)
      (temperature : R) :
  temperature_range !! i = Some temperature ->
  Script.temperature_at temperature_range (Z.of_nat i) = Ok temperature.
Proof.
  intros Hi. pose proof (lookup_lt_Some _ _ _ Hi) as Hlt.
  unfold Script.temperature_at. rewrite np_index_in_range by lia.
  simpl. rewrite Nat2Z.id, Hi. reflexivity.
Qed.

(** A call of [update] only appends to the four lists. *)
Lemma update_grows (lattice_size : Z) (temperature_range : list R)
      (frame : Z) (w w' : Script.globals) :
  Script.update lattice_size temperature_range frame w = Ok w' ->
  Script.energy_data w `prefix_of` Script.energy_data w'
  /\ Script.magnetization_data w `prefix_of` Script.magnetization_data w'
  /\ Script.specific_heat_data w `prefix_of` Script.specific_heat_data w'
  /\ Script.susceptibility_data w `prefix_of` Script.susceptibility_data w'.
Proof.
  unfold Script.update. intros Hu.
  destruct (Script.temperature_at temperature_range frame)
    as [temperature|e]; [simpl in Hu|discriminate].
  destruct (ZnModel.metropolis_step _ _) as [[model g']|e];
    [|discriminate].
  destruct (1 <? _); injection Hu as <-; simpl;
    repeat split; try apply prefix_app_r; reflexivity.
Qed.

Lemma updates_grow (lattice_size : Z) (temperature_range : list R)
      (fs : list Z) (w w' : Script.globals) :
  Script.animate lattice_size temperature_range fs w = Ok w' ->
  Script.energy_data w `prefix_of` Script.energy_data w'
  /\ Script.magnetization_data w `prefix_of` Script.magnetization_data w'
  /\ Script.specific_heat_data w `prefix_of` Script.specific_heat_data w'
  /\ Script.susceptibility_data w `prefix_of` Script.susceptibility_data w'.
Proof.
  unfold Script.animate. revert w.
  induction fs as [|frame fs IH]; intros w Hw; simpl in Hw.
  - injection Hw as <-. repeat split; reflexivity.
  - destruct (Script.update lattice_size temperature_range frame w)
      as [w1|e] eqn:Hu; [simpl in Hw|discriminate].
    destruct (update_grows _ _ _ _ _ Hu) as (E1 & M1 & C1 & X1).
    destruct (IH w1 Hw) as (E2 & M2 & C2 & X2).
    repeat split; etrans; eassumption.
Qed.

(** X9. Over any list of valid frames with non-zero temperatures, starting
    from empty histories: entry i of [specific_heat_data] is the population
    variance of the first i+2 recorded energies divided by L^2 T^2, and
    entry i of [susceptibility_data] that of the first i+2 recorded
    magnetizations divided by L^2 T, with T the temperature of frame i+1;
    each series is one shorter than the histories; and no call rewrites what
    an earlier call has recorded: what the four lists held after any first
    part of the frames is the beginning of what they hold at the end. *)
Theorem derived_series_entries (lattice_size : Z) (temperature_range : list R)
        (fs : list Z) (model : ZnModel.t) (g : rng) :
  wf model ->
  Forall (fun temperature => temperature <> 0%R) temperature_range ->
  Forall (fun frame => 0 <= frame < Z.of_nat (length temperature_range)) fs ->
  exists w,
    Script.animate lattice_size temperature_range fs (Script.start model g)
    = Ok w
    /\ length (Script.specific_heat_data w)
       = (length (Script.energy_data w) - 1)%nat
    /\ length (Script.susceptibility_data w)
       = (length (Script.magnetization_data w) - 1)%nat
    /\ (forall (i : nat) (frame : Z) (temperature : R),
          fs !! S i = Some frame ->
          Script.temperature_at temperature_range frame = Ok temperature ->
          Script.specific_heat_data w !! i
          = Some (population_variance (take (S (S i)) (Script.energy_data w))
                  / (IZR (lattice_size ^ 2) * temperature ^ 2))%R
          /\ Script.susceptibility_data w !! i
             = Some (population_variance
                       (map IZR
                            (take (S (S i)) (Script.magnetization_data w)))
                     / (IZR (lattice_size ^ 2) * temperature))%R)
    /\ (forall fs1 fs2 : list Z,
          fs = fs1 ++ fs2 ->
          exists w1,
            Script.animate lattice_size temperature_range fs1
                           (Script.start model g) = Ok w1
            /\ Script.energy_data w1 `prefix_of` Script.energy_data w
            /\ Script.magnetization_data w1
               `prefix_of` Script.magnetization_data w
            /\ Script.specific_heat_data w1
               `prefix_of` Script.specific_heat_data w
            /\ Script.susceptibility_data w1
               `prefix_of` Script.susceptibility_data w).
Proof.
  intros Hwf Hnz Hfs.
  destruct (animate_played lattice_size temperature_range fs model g
              Hwf Hnz Hfs) as (w & Hw & Hpl).
  destruct Hpl as [_ _ _ _ HE HM Hsh Hsu _ Hser].
  exists w. split; [exact Hw|]. split; [congruence|].
  split; [congruence|]. split.
  - intros i frame temperature Hi Hat.
    rewrite <- !np_var_population_variance. exact (Hser i frame temperature Hi Hat).
  - intros fs1 fs2 ->.
    unfold Script.animate in Hw. rewrite foldR_app in Hw.
    destruct (foldR _ fs1 (Script.start model g)) as [w1|e] eqn:H1;
      [simpl in Hw|discriminate].
    exists w1. split; [exact H1|].
    exact (updates_grow lattice_size temperature_range fs2 w1 w Hw).
Qed.

(** Three passes over [aligned3] for the frames 0, 2, 1 of the schedule
    5, 1, 2: the third entry comes from the energies -14, -18, -14 and the
    magnetizations -7, -9, -7 at the temperature 1, and the single entry the
    first two frames had produced is still the first. *)
Lemma derived_series_entries_witness :
  exists w,
    Script.animate 3 [5%R; 1%R; 2%R] [0; 2; 1]
                   (Script.start aligned3 exhausted) = Ok w
    /\ Script.energy_data w = [(-14)%R; (-18)%R; (-14)%R]
    /\ Script.specific_heat_data w !! 1%nat = Some (32 / 81)%R
    /\ Script.susceptibility_data w !! 1%nat = Some (8 / 81)%R
    /\ exists w1,
         Script.animate 3 [5%R; 1%R; 2%R] [0; 2]
                        (Script.start aligned3 exhausted) = Ok w1
         /\ Script.specific_heat_data w1
            `prefix_of` Script.specific_heat_data w.
Proof.
  destruct (derived_series_entries 3 [5%R; 1%R; 2%R] [0; 2; 1] aligned3
              exhausted aligned3_wf) as (w & Hw & _ & _ & Hser & Hkeep).
  - repeat constructor; lra.
  - repeat constructor; simpl; lia.
  - exists w. split; [exact Hw|].
    destruct (Hser 1%nat 1 1%R eq_refl eq_refl) as [Hc Hx].
    destruct (Hkeep [0; 2] [1] eq_refl) as (w1 & Hw1 & _ & _ & Hpre & _).
    rewrite three_frames_run in Hw. injection Hw as <-.
    split; [reflexivity|]. split; [|split].
    + rewrite Hc. f_equal. change (3 ^ 2) with 9.
      unfold population_variance, three_frames. simpl. field.
    + rewrite Hx. f_equal. change (3 ^ 2) with 9.
      unfold population_variance, three_frames. simpl. field.
    + exists w1. split; [exact Hw1|exact Hpre].
Defined.

(** X10. In the script's own run, frames 0, 1, ..., n_steps-1 in order, the
    x and y data of the final specific-heat and susceptibility plots have
    the same length n_steps-1, but point i pairs the abscissa
    [temperature_range[i]] with the value derived at the temperature of the
    next frame, [temperature_range[i+1]], from the first i+2 records. *)
Theorem plotted_points (lattice_size : Z) (temperature_range : list R)
        (model : ZnModel.t) (g : rng) :
  wf model ->
  Forall (fun temperature => temperature <> 0%R) temperature_range ->
  exists w,
    Script.animate lattice_size temperature_range
                   (range (Z.of_nat (length temperature_range)))
                   (Script.start model g) = Ok w
    /\ length (fst (Main.specific_heat_curve temperature_range w))
       = (length temperature_range - 1)%nat
    /\ length (snd (Main.specific_heat_curve temperature_range w))
       = (length temperature_range - 1)%nat
    /\ length (fst (Main.susceptibility_curve temperature_range w))
       = (length temperature_range - 1)%nat
    /\ length (snd (Main.susceptibility_curve temperature_range w))
       = (length temperature_range - 1)%nat
    /\ (forall (i : nat) (here next : R),
          temperature_range !! i = Some here ->
          temperature_range !! S i = Some next ->
          fst (Main.specific_heat_curve temperature_range w) !! i = Some here
          /\ snd (Main.specific_heat_curve temperature_range w) !! i
             = Some (Script.np_var (take (S (S i)) (Script.energy_data w))
                     / (IZR (lattice_size ^ 2) * next ^ 2))%R
          /\ fst (Main.susceptibility_curve temperature_range w) !! i
             = Some here
          /\ snd (Main.susceptibility_curve temperature_range w) !! i
             = Some (Script.np_var
                       (map IZR
                            (take (S (S i)) (Script.magnetization_data w)))
                     / (IZR (lattice_size ^ 2) * next))%R).
Proof.
  intros Hwf Hnz.
  destruct (animate_played lattice_size temperature_range
              (range (Z.of_nat (length temperature_range))) model g
              Hwf Hnz (range_frames temperature_range)) as (w & Hw & Hpl).
  destruct Hpl as [_ _ _ _ HE HM Hsh Hsu _ Hser].
  rewrite range_length, Nat2Z.id in Hsh, Hsu.
  exists w. split; [exact Hw|]. unfold Main.specific_heat_curve,
    Main.susceptibility_curve. simpl.
  rewrite !length_take, Hsh, Hsu.
  split; [lia|]. split; [reflexivity|]. split; [lia|].
  split; [reflexivity|].
  intros i here next Hi Hnext.
  pose proof (lookup_lt_Some _ _ _ Hnext) as Hlt.
  destruct (Hser i (Z.of_nat (S i)) next) as [Hc Hx].
  - apply range_lookup. lia.
  - apply temperature_at_lookup, Hnext.
  - rewrite !lookup_take_lt by lia. auto.
Qed.

Lemma plotted_points_witness :
  exists w,
    Script.animate 3 [5%R; 1%R; 2%R] (range 3)
                   (Script.start aligned3 exhausted) = Ok w
    /\ fst (Main.specific_heat_curve [5%R; 1%R; 2%R] w) !! 0%nat = Some 5%R
    /\ snd (Main.specific_heat_curve [5%R; 1%R; 2%R] w) !! 0%nat
       = Some (Script.np_var (take 2 (Script.energy_data w))
               / (IZR (3 ^ 2) * 1 ^ 2))%R.
Proof.
  destruct (plotted_points 3 [5%R; 1%R; 2%R] aligned3 exhausted aligned3_wf)
    as (w & Hw & _ & _ & _ & _ & Hpt).
  - repeat constructor; lra.
  - exists w. split; [exact Hw|].
    destruct (Hpt 0%nat 5%R 1%R eq_refl eq_refl) as (Hx & Hy & _).
    split; [exact Hx|exact Hy].
Defined.

(** ** The schedule *)

Lemma linspace_length (start stop : R) (num : nat) :
  length (Main.linspace start stop num) = num.
Proof. unfold Main.linspace. rewrite length_map, length_seq. reflexivity. Qed.

Lemma linspace_positive (start stop : R) (num : nat) :
  (0 < start)%R -> (0 < stop)%R ->
  Forall (fun temperature => (0 < temperature)%R)
         (Main.linspace start stop num).
Proof.
  intros Hstart Hstop. apply List.Forall_forall. intros t Ht.
  unfold Main.linspace in Ht. apply in_map_iff in Ht as (i & <- & Hi).
  apply in_seq in Hi.
  destruct (Nat.eq_dec (num - 1)%nat 0%nat) as [Hone|Hmore].
  - assert (i = 0%nat) as -> by lia. simpl. lra.
  - assert (Hb : (0 < INR (num - 1)%nat)%R) by (apply lt_0_INR; lia).
    assert (Ha : (0 <= INR i <= INR (num - 1)%nat)%R)
      by (split; [apply pos_INR|apply le_INR; lia]).
    set (a := INR i) in *. set (b := INR (num - 1)%nat) in *.
    replace (start + a * ((stop - start) / b))%R
      with ((start * (b - a) + a * stop) / b)%R by (field; lra).
    apply Rdiv_lt_0_compat; [|exact Hb].
    destruct (Req_dec a 0) as [Hz|Hnz].
    + rewrite Hz. replace (start * (b - 0) + 0 * stop)%R
        with (start * b)%R by ring.
      apply Rmult_lt_0_compat; assumption.
    + apply Rplus_le_lt_0_compat.
      * apply Rmult_le_pos; lra.
      * apply Rmult_lt_0_compat; lra.
Qed.

Lemma positive_nonzero (l : list R) :
  Forall (fun temperature => (0 < temperature)%R) l ->
  Forall (fun temperature => temperature <> 0%R) l.
Proof.
  intros Hpos. apply (Forall_impl _ _ _ Hpos). intros t Ht. lra.
Qed.

(** X11. With a schedule [np.linspace(start, stop, num)] between two
    positive temperatures (num >= 1), an addressable lattice size L >= 1
    (8 L^2 < 2^63) and a number of states that is an int64 of 2 or more, the
    script's run returns for every state of the generator: all [num] passes
    complete, [num] energies and magnetizations and [num]-1 derived values
    of each kind are recorded, and (the field being the default 0) the last
    recorded energy is the final [energy], which equals
    [calculate_total_energy()].  With more than 2^63 states the run stops
    with the ValueError of the constructor, and with an empty schedule it
    raises IndexError before it builds the instance. *)
Theorem run_completes (lattice_size n_states : Z) (start stop : R)
        (num : nat) (g : rng) :
  1 <= lattice_size -> addressable lattice_size ->
  (0 < start)%R -> (0 < stop)%R -> (1 <= num)%nat ->
  (2 <= n_states <= int64_max ->
   exists w,
     Main.run lattice_size n_states (Main.linspace start stop num) g = Ok w
     /\ length (Script.energy_data w) = num
     /\ length (Script.magnetization_data w) = num
     /\ length (Script.specific_heat_data w) = (num - 1)%nat
     /\ length (Script.susceptibility_data w) = (num - 1)%nat
     /\ last (Script.energy_data w)
        = Some (ZnModel.energy (Script.zn_model w))
     /\ ZnModel.calculate_total_energy (Script.zn_model w)
        = Ok (ZnModel.energy (Script.zn_model w)))
  /\ (int64_max + 1 < n_states ->
      Main.run lattice_size n_states (Main.linspace start stop num) g
      = Raise ValueError)
  /\ Main.run lattice_size n_states [] g = Raise IndexError.
Proof.
  intros HL Hsize Hstart Hstop Hnum.
  set (tr := Main.linspace start stop num).
  assert (Hlen : length tr = num) by apply linspace_length.
  pose proof (positive_nonzero tr (linspace_positive start stop num
                                     Hstart Hstop)) as Hnz.
  destruct (temperature_at_frame tr 0) as (t0 & Hat & _); [lia|].
  split; [|split; [|reflexivity]].
  - intros Hn.
    assert (Hn1 : 1 <= n_states) by lia.
    assert (Hn2 : 2 <= n_states) by lia.
    assert (Hstates : n_states - 1 <= int64_max) by lia.
    destruct (init_total lattice_size n_states t0 0 g HL Hsize Hn1 Hstates)
      as (model & g' & Hi & Hc).
    pose proof (constructed_wf _ _ _ _ model HL Hsize Hn2 Hstates Hc) as Hwf.
    pose proof (reach_init _ _ _ _ _ _ _ HL Hn2 Hi) as Hreach.
    destruct (animate_played lattice_size tr (range (Z.of_nat (length tr)))
                model g' Hwf Hnz (range_frames tr)) as (w & Hw & Hpl).
    destruct Hpl as [_ _ HH Hr HE HM Hsh Hsu Hcur _].
    rewrite range_length, Nat2Z.id, Hlen in HE, HM, Hsh, Hsu.
    exists w. split.
    { unfold Main.run. rewrite Hat. simpl. rewrite Hi. exact Hw. }
    split; [exact HE|]. split; [exact HM|]. split; [exact Hsh|].
    split; [exact Hsu|]. split.
    + apply Hcur. intros Hnil.
      apply (f_equal (@length Z)) in Hnil.
      rewrite range_length, Nat2Z.id, Hlen in Hnil. simpl in Hnil. lia.
    + apply (reachable_field _ (Hr Hreach)).
      rewrite HH. exact (c_H _ _ _ _ _ Hc).
  - intros Hwide. unfold Main.run. rewrite Hat. simpl.
    rewrite init_refused; [reflexivity|exact HL|right; right; lia].
Qed.

Lemma run_completes_witness :
  exists w,
    Main.run Main.lattice_size Main.n_states Main.temperature_range exhausted
    = Ok w
    /\ length (Script.energy_data w) = 500%nat
    /\ length (Script.specific_heat_data w) = 499%nat.
Proof.
  destruct (run_completes 50 2 5 (1 / 100) 500 exhausted)
    as [Hrun _]; try lia; try lra; [vm_compute; congruence|].
  destruct Hrun as (w & Hw & HE & _ & Hsh & _); [vm_compute; split; congruence|].
  exists w. split; [exact Hw|]. split; [exact HE|exact Hsh].
Defined.

(** ** The limits of the axis *)

Lemma fold_left_Rmin (l : list R) (v : R) :
  (fold_left Rmin l v <= v)%R
  /\ Forall (fun x => (fold_left Rmin l v <= x)%R) l
  /\ In (fold_left Rmin l v) (v :: l).
Proof.
  revert v. induction l as [|x l IH]; intros v; simpl.
  - split; [lra|]. split; [constructor|left; reflexivity].
  - destruct (IH (Rmin v x)) as (Hv & Hall & Hin).
    pose proof (Rmin_l v x). pose proof (Rmin_r v x).
    split; [lra|]. split; [constructor; [lra|exact Hall]|].
    destruct Hin as [Hin|Hin]; [|right; right; exact Hin].
    rewrite <- Hin. unfold Rmin. destruct (Rle_dec v x); auto.
Qed.

Lemma fold_left_Rmax (l : list R) (v : R) :
  (v <= fold_left Rmax l v)%R
  /\ Forall (fun x => (x <= fold_left Rmax l v)%R) l
  /\ In (fold_left Rmax l v) (v :: l).
Proof.
  revert v. induction l as [|x l IH]; intros v; simpl.
  - split; [lra|]. split; [constructor|left; reflexivity].
  - destruct (IH (Rmax v x)) as (Hv & Hall & Hin).
    pose proof (Rmax_l v x). pose proof (Rmax_r v x).
    split; [lra|]. split; [constructor; [lra|exact Hall]|].
    destruct Hin as [Hin|Hin]; [|right; right; exact Hin].
    rewrite <- Hin. unfold Rmax. destruct (Rle_dec v x); auto.
Qed.

Lemma py_min_max (l : list R) :
  l <> [] ->
  exists lo hi,
    Main.py_min l = Ok lo /\ Main.py_max l = Ok hi
    /\ In lo l /\ In hi l
    /\ forall x, In x l -> (lo <= x <= hi)%R.
Proof.
  destruct l as [|v l]; [congruence|]. intros _.
  destruct (fold_left_Rmin l v) as (Hv & Hall & Hin).
  destruct (fold_left_Rmax l v) as (Hv' & Hall' & Hin').
  exists (fold_left Rmin l v), (fold_left Rmax l v).
  split; [reflexivity|]. split; [reflexivity|].
  split; [exact Hin|]. split; [exact Hin'|].
  rewrite List.Forall_forall in Hall, Hall'.
  intros x [<-|Hx]; [lra|]. split; [apply Hall|apply Hall']; exact Hx.
Qed.

(** X12. The limits [update] passes to [set_ylim] exist after every call
    that has recorded a pass: [min] and [max] are taken over a list that
    then holds at least that pass, they are two of the recorded values, and
    every recorded energy and magnetization lies between them.  On the
    empty histories the script starts with, the same expression would raise
    ValueError. *)
Theorem ylim_bounds (lattice_size : Z) (temperature_range : list R)
        (frame : Z) (w w' : Script.globals) :
  Script.update lattice_size temperature_range frame w = Ok w' ->
  (exists lo hi,
     Main.ylim w' = Ok (lo, hi)
     /\ In lo (Script.energy_data w'
               ++ map IZR (Script.magnetization_data w'))
     /\ In hi (Script.energy_data w'
               ++ map IZR (Script.magnetization_data w'))
     /\ (forall e, In e (Script.energy_data w') -> (lo <= e <= hi)%R)
     /\ (forall m, In m (Script.magnetization_data w') ->
                   (lo <= IZR m <= hi)%R))
  /\ forall model g, Main.ylim (Script.start model g) = Raise ValueError.
Proof.
  intros Hu. split; [|reflexivity].
  assert (Hne : Script.energy_data w'
                ++ map IZR (Script.magnetization_data w') <> []).
  { unfold Script.update in Hu.
    destruct (Script.temperature_at temperature_range frame)
      as [temperature|e]; [simpl in Hu|discriminate].
    destruct (ZnModel.metropolis_step _ _) as [[model g']|e];
      [|discriminate].
    destruct (1 <? _); injection Hu as <-; simpl;
      intros Hnil; apply app_eq_nil in Hnil as [Hnil _];
      apply app_eq_nil in Hnil as [_ Hnil]; discriminate. }
  destruct (py_min_max _ Hne) as (lo & hi & Hlo & Hhi & Ilo & Ihi & Hall).
  exists lo, hi. unfold Main.ylim. simpl. rewrite Hlo, Hhi. simpl.
  split; [reflexivity|]. split; [exact Ilo|]. split; [exact Ihi|]. split.
  - intros e He. apply Hall, in_or_app. left. exact He.
  - intros m Hm. apply Hall, in_or_app. right. apply in_map, Hm.
Qed.

Lemma ylim_bounds_witness :
  exists w' lo hi,
    Script.update 3 [5%R] 0 (Script.start aligned3 exhausted) = Ok w'
    /\ Main.ylim w' = Ok (lo, hi)
    /\ (lo <= ZnModel.energy (Script.zn_model w') <= hi)%R.
Proof.
  destruct (update_result 3 [5%R] 0 (Script.start aligned3 exhausted))
    as (t & model & g' & _ & _ & _ & _ & _ & _ & Hu).
  - exact aligned3_wf.
  - repeat constructor. lra.
  - simpl. lia.
  - destruct (ylim_bounds 3 [5%R] 0 _ _ Hu)
      as [(lo & hi & Hy & _ & _ & He & _) _].
    eexists _, lo, hi. split; [exact Hu|]. split; [exact Hy|].
    apply He. simpl. left. reflexivity.
Defined.

(** * What a pass draws and what it leaves alone *)









(** X14. With two states a trial that returns either leaves the instance
    as it was or flips one cell of the grid between 0 and 1, and then the
    magnetization moves by +2 (a cell 0 became 1) or by -2 (a cell 1 became
    0): it changes exactly when the move is accepted. *)
Theorem two_state_flip (s s' : ZnModel.t) (g g' : rng) :
  wf s -> ZnModel.n s = 2 -> ZnModel.trial s g = Ok (s', g') ->
  s' = s
  \/ exists x y,
       site (ZnModel.L s) (x, y)
       /\ ZnModel.lattice s'
          = put (ZnModel.lattice s) x y (1 - cell (ZnModel.lattice s) x y)
       /\ (cell (ZnModel.lattice s) x y = 0
           /\ ZnModel.magnetization s' = ZnModel.magnetization s + 2
           \/ cell (ZnModel.lattice s) x y = 1
              /\ ZnModel.magnetization s' = ZnModel.magnetization s - 2).
Proof.
  intros Hwf Hn Ht.
  destruct (trial_cases s s' g g' Hwf Ht) as [->|(p & Hpr & ->)];
    [left; reflexivity|right].
  destruct Hpr as [Hs Hold Hnew Hdiff _ _ _].
  pose proof (cells_in_cell _ _ _ _ _ (wf_square s Hwf) (wf_cells s Hwf) Hs)
    as Hcell.
  rewrite <- Hold, Hn in Hcell. rewrite Hn in Hnew.
  exists (ZnModel.site_x p), (ZnModel.site_y p).
  split; [exact Hs|]. rewrite <- Hold. simpl.
  assert (Hflip : ZnModel.new_spin p = 1 - ZnModel.old_spin p) by lia.
  split; [rewrite Hflip; reflexivity|].
  unfold ZnModel.contribution.
  destruct (Z.eq_dec (ZnModel.old_spin p) 0) as [H0|H0].
  - left. split; [exact H0|]. rewrite Hflip, H0. simpl. lia.
  - right. assert (H1 : ZnModel.old_spin p = 1) by lia.
    split; [exact H1|]. rewrite Hflip, H1. simpl. lia.
Qed.

Lemma two_state_flip_witness :
  exists s' g',
    ZnModel.trial aligned3 exhausted = Ok (s', g')
    /\ (s' = aligned3
        \/ exists x y,
             site 3 (x, y)
             /\ ZnModel.lattice s'
                = put (ZnModel.lattice aligned3) x y
                      (1 - cell (ZnModel.lattice aligned3) x y)
             /\ (cell (ZnModel.lattice aligned3) x y = 0
                 /\ ZnModel.magnetization s'
                    = ZnModel.magnetization aligned3 + 2
                 \/ cell (ZnModel.lattice aligned3) x y = 1
                    /\ ZnModel.magnetization s'
                       = ZnModel.magnetization aligned3 - 2)).
Proof.
  assert (HT : ZnModel.T aligned3 <> 0%R) by (simpl; lra).
  destruct (trial_total aligned3 exhausted aligned3_wf HT)
    as (p & g1 & b & g2 & _ & _ & _ & Ht).
  eexists _, g2. split; [exact Ht|].
  exact (two_state_flip aligned3 _ exhausted g2 aligned3_wf eq_refl Ht).
Defined.
